(** * Artifact reconciliation: npm registry configuration and NuGet lock files

    A shallow embedding of

    - [lib/modules/manager/npm/npmrc.ts]: [resolveNpmrc],
      [getRegistryNpmrcLines], [getRegistryYarnrcScopes];
    - [lib/modules/manager/nuget/artifacts.ts]:
      [createCachedNuGetConfigFile], [runDotnetRestore], [updateArtifacts].

    JavaScript strings are modelled as [string] (one [ascii] per code unit),
    [string | null | undefined] values as [option string], plain objects used
    as dictionaries as [gmap string _] together with the property names they
    inherit from [Object.prototype], and the asynchronous, throwing code of
    the NuGet manager in a state-and-exception monad over the files of the
    working copy.  Collaborators that only read (the graph lookup, the
    snapshots, the registry and [global.json] lookups) are total functions of
    the world; the manifest write, the cache writes and the toolchain may
    throw, as their environment decides. *)

From Stdlib Require Import Ascii String List Bool Arith.
From stdpp Require Import base option list gmap strings.

Local Open Scope string_scope.
Local Open Scope list_scope.

(** ** JavaScript string operations *)

Module Js.

Definition LF : ascii := "010"%char.
Definition CR : ascii := "013"%char.

(** [s.startsWith(p)] *)
Fixpoint startsWith (p s : string) : bool :=
  match p, s with
  | EmptyString, _ => true
  | String _ _, EmptyString => false
  | String a p', String b s' => if Ascii.eqb a b then startsWith p' s' else false
  end.

(** [s.includes(needle)] *)
Fixpoint includes (needle s : string) : bool :=
  match s with
  | EmptyString => startsWith needle EmptyString
  | String _ s' => startsWith needle s || includes needle s'
  end.

(** [s.endsWith(suffix)] *)
Fixpoint endsWith (suffix s : string) : bool :=
  String.eqb suffix s ||
  match s with
  | EmptyString => false
  | String _ s' => endsWith suffix s'
  end.

(** [s.slice(n)] for a non-negative [n] *)
Fixpoint slice (n : nat) (s : string) : string :=
  match n, s with
  | O, _ => s
  | S _, EmptyString => EmptyString
  | S n', String _ s' => slice n' s'
  end.

(** [s.toLowerCase()] on the ASCII letters, which is all the
    case-insensitive pattern of the NuGet manager looks at. *)
Definition lower (c : ascii) : ascii :=
  let n := nat_of_ascii c in
  if (65 <=? n)%nat && (n <=? 90)%nat then ascii_of_nat (n + 32) else c.

Fixpoint toLowerCase (s : string) : string :=
  match s with
  | EmptyString => EmptyString
  | String c s' => String (lower c) (toLowerCase s')
  end.

(** Prepends a code unit to the first piece of a split. *)
Definition cons_head (c : ascii) (pieces : list string) : list string :=
  match pieces with
  | [] => [String c EmptyString]
  | h :: t => String c h :: t
  end.

(** [s.split(sep)] for a one-character separator: never empty. *)
Fixpoint split (sep : ascii) (s : string) : list string :=
  match s with
  | EmptyString => [EmptyString]
  | String c s' =>
      if Ascii.eqb c sep then EmptyString :: split sep s'
      else cons_head c (split sep s')
  end.

(** [pieces[0]] of a split, which always exists. *)
Definition first (pieces : list string) : string := hd EmptyString pieces.

(** [pieces.join(sep)] *)
Fixpoint join (sep : string) (pieces : list string) : string :=
  match pieces with
  | [] => EmptyString
  | [x] => x
  | x :: rest => x +:+ sep +:+ join sep rest
  end.

(** [isNonEmptyString(v)] of [@sindresorhus/is] on a
    [string | null | undefined] value. *)
Definition isNonEmptyString (v : option string) : bool :=
  match v with
  | Some (String _ _) => true
  | _ => false
  end.

(** Truthiness of a [string | null | undefined] value: [!!v]. *)
Definition truthy (v : option string) : bool := isNonEmptyString v.

(** The own property names of [Object.prototype], which the [in] operator
    finds on every object created by an object literal. *)
Definition objectPrototypeKeys : list string :=
  [ "constructor"; "__defineGetter__"; "__defineSetter__"; "hasOwnProperty";
    "__lookupGetter__"; "__lookupSetter__"; "isPrototypeOf";
    "propertyIsEnumerable"; "toString"; "valueOf"; "__proto__";
    "toLocaleString" ].

(** [key in obj] for an object [obj] created by [{}] with own properties
    [own]: own properties first, then the prototype chain. *)
Definition has_property {V} (key : string) (own : gmap string V) : bool :=
  bool_decide (is_Some (own !! key)) || bool_decide (key ∈ objectPrototypeKeys).

(** The code unit [c] does not occur in [s]. *)
Fixpoint avoids (c : ascii) (s : string) : bool :=
  match s with
  | EmptyString => true
  | String a s' => negb (Ascii.eqb a c) && avoids c s'
  end.

End Js.

(** An [Upgrade] of [manager/types], with the fields the two managers read. *)
Record Upgrade := {
  depName : option string;
  registryUrls : option (list string);
}.

(** ** [lib/modules/manager/npm/npmrc.ts] *)

Module Npmrc.

(** Modelled from the spec: the constant [newlineRegex] of [util/regex] is
    not in the source files; section 4.1 filters the repository text line by
    line, and the pattern is the usual [/\r?\n/]: [split] cuts at every line
    feed and drops a carriage return that stands right before it. *)
Fixpoint splitNewline (s : string) : list string :=
  match s with
  | EmptyString => [EmptyString]
  | String c s' =>
      if Ascii.eqb c Js.LF then EmptyString :: splitNewline s'
      else if Ascii.eqb c Js.CR && Js.startsWith (String Js.LF EmptyString) s'
      then splitNewline s'
      else Js.cons_head c (splitNewline s')
  end.

(** Modelled from the spec: the pattern goes through [regEx] of
    [util/regex], a module outside the ones verified here; it is taken to
    compile the pattern as the built-in [RegExp] does.  An engine in which
    the dot crosses a carriage return would also strip a package-lock line
    that ends in a carriage return and a line feed, which this model keeps.

    The tail [.*?(\n|$)] of the package-lock pattern: the number of code
    units it consumes at the start of [s], if it matches there.  The dot
    matches no line terminator, and [$] only the end of the text. *)
Fixpoint matchLineTail (s : string) : option nat :=
  match s with
  | EmptyString => Some O
  | String c s' =>
      if Ascii.eqb c Js.LF then Some 1%nat
      else if Ascii.eqb c Js.CR then None
      else S <$> matchLineTail s'
  end.

Definition packageLock : string := "package-lock".

(** Length of the match of [/(^|\n)package-lock.*?(\n|$)/] that starts at
    the current position; [atStart] tells whether that is position 0. *)
Definition matchPackageLock (atStart : bool) (s : string) : option nat :=
  let viaStart :=
    if atStart && Js.startsWith packageLock s
    then Nat.add 12 <$> matchLineTail (Js.slice 12 s)
    else None in
  match viaStart with
  | Some n => Some n
  | None =>
      match s with
      | String c s' =>
          if Ascii.eqb c Js.LF && Js.startsWith packageLock s'
          then Nat.add 13 <$> matchLineTail (Js.slice 12 s')
          else None
      | EmptyString => None
      end
  end.

(** [text.replace(regEx(/(^|\n)package-lock.*?(\n|$)/g), '\n')]: matches
    are found left to right and do not overlap.  [skip] counts the code
    units of the current match that are still to be dropped. *)
Fixpoint replacePackageLock (skip : nat) (atStart : bool) (s : string) : string :=
  match s with
  | EmptyString => EmptyString
  | String c s' =>
      match skip with
      | S k => replacePackageLock k false s'
      | O =>
          match matchPackageLock atStart s with
          | Some n => String Js.LF (replacePackageLock (Nat.pred n) false s')
          | None => String c (replacePackageLock O false s')
          end
      end
  end.

Definition stripPackageLock (repoNpmrc : string) : string :=
  if Js.includes packageLock repoNpmrc
  then replacePackageLock O true repoNpmrc
  else repoNpmrc.

Definition marker : string := "=${".

(** The interpolation filter: lines with a variable are dropped unless
    [exposeAllEnv] is set. *)
Definition stripVariables (exposeAllEnv : bool) (repoNpmrc : string) : string :=
  if Js.includes marker repoNpmrc && negb exposeAllEnv
  then Js.join (String Js.LF EmptyString)
         (List.filter (fun line => negb (Js.includes marker line))
                      (splitNewline repoNpmrc))
  else repoNpmrc.

(** [config.npmrc ?? ''], closed by a newline when it is not empty. *)
Definition callerPrefix (configNpmrc : option string) : string :=
  let npmrc := default EmptyString configNpmrc in
  match npmrc with
  | EmptyString => npmrc
  | String _ _ =>
      if Js.endsWith (String Js.LF EmptyString) npmrc then npmrc
      else npmrc +:+ String Js.LF EmptyString
  end.

Record Config := {
  npmrc : option string;
  npmrcMerge : option bool;
}.

Record NpmrcResult := {
  res_npmrc : option string;
  npmrcFileName : option string;
}.

Section Resolve.
(** The collaborators of [util/fs] and the global configuration. *)
Variable findLocalSiblingOrParent : string -> string -> option string.
Variable readLocalFile : string -> option string.
Variable exposeAllEnv : bool.

Definition resolveNpmrc (packageFile : string) (config : Config) : NpmrcResult :=
  let found := findLocalSiblingOrParent packageFile ".npmrc" in
  let text :=
    if Js.truthy found then
      match readLocalFile (default EmptyString found) with
      | Some repoNpmrc =>
          if bool_decide (is_Some (npmrc config))
             && negb (default false (npmrcMerge config))
          then npmrc config
          else Some (callerPrefix (npmrc config) +:+
                     stripVariables exposeAllEnv (stripPackageLock repoNpmrc))
      | None => None
      end
    else npmrc config in
  {| res_npmrc := text; npmrcFileName := found |}.
End Resolve.

(** [upgrade.registryUrls?.[0]] *)
Definition firstRegistryUrl (u : Upgrade) : option string :=
  match registryUrls u with
  | Some (url :: _) => Some url
  | _ => None
  end.

(** The guards shared by both loops; the name and the URL when the upgrade
    passes them. *)
Definition qualifies (u : Upgrade) : option (string * string) :=
  if negb (Js.isNonEmptyString (firstRegistryUrl u))
     || negb (Js.isNonEmptyString (depName u)) then None
  else
    let name := default EmptyString (depName u) in
    if negb (Js.startsWith "@" name) then None
    else Some (name, default EmptyString (firstRegistryUrl u)).

(** One iteration of the loop of [getRegistryNpmrcLines] on the pair
    [(seenScopes, lines)]. *)
Definition linesStep (st : gset string * list string) (u : Upgrade)
  : gset string * list string :=
  match qualifies u with
  | None => st
  | Some (name, registryUrl) =>
      let scope := Js.first (Js.split "/" name) in
      if bool_decide (scope ∈ st.1) then st
      else ({[scope]} ∪ st.1, st.2 ++ [scope +:+ ":registry=" +:+ registryUrl])
  end.

Definition getRegistryNpmrcLines (upgrades : list Upgrade) : list string :=
  (foldl linesStep (∅, []) upgrades).2.

(** One iteration of the loop of [getRegistryYarnrcScopes] on [scopes];
    the value stands for the record [{ npmRegistryServer }]. *)
Definition scopesStep (scopes : gmap string string) (u : Upgrade)
  : gmap string string :=
  match qualifies u with
  | None => scopes
  | Some (name, registryUrl) =>
      let scope := Js.slice 1 (Js.first (Js.split "/" name)) in
      if Js.has_property scope scopes then scopes
      else <[scope := registryUrl]> scopes
  end.

Definition getRegistryYarnrcScopes (upgrades : list Upgrade)
  : option (gmap string string) :=
  let scopes := foldl scopesStep ∅ upgrades in
  if Nat.eqb (size scopes) 0 then None else Some scopes.

(** *** Names for stating the properties *)

(** The scope of a scoped name, without its sigil. *)
Definition scopeOf (name : string) : string :=
  Js.slice 1 (Js.first (Js.split "/" name)).

(** The rc line of a scope, given without its sigil, and its registry. *)
Definition registryLine (entry : string * string) : string :=
  "@" +:+ entry.1 +:+ ":registry=" +:+ entry.2.

(** An upgrade cut down to its first registry URL. *)
Definition firstUrlOnly (u : Upgrade) : Upgrade :=
  {| depName := depName u; registryUrls := take 1 <$> registryUrls u |}.

(** First-seen wins, in closed form: the registry URL of the first upgrade
    that passes the guards with this scope (given without its sigil). *)
Fixpoint firstSeenUrl (upgrades : list Upgrade) (scope : string) : option string :=
  match upgrades with
  | [] => None
  | u :: rest =>
      match qualifies u with
      | Some (name, registryUrl) =>
          if bool_decide (scopeOf name = scope) then Some registryUrl
          else firstSeenUrl rest scope
      | None => firstSeenUrl rest scope
      end
  end.

(** The rest of a line: a text without line feed or carriage return. *)
Definition plain (a : string) : bool := Js.avoids Js.LF a && Js.avoids Js.CR a.

(** A line feed followed by [package-lock]: where the pattern matches past
    the start of the text. *)
Definition lineStart : string := String Js.LF packageLock.

(** *** Sample inputs *)

Definition nl : string := String Js.LF EmptyString.

Definition lockLine : string := "package-lock=${LOCK}".
Definition repoText : string := "registry=https://r/" +:+ nl +:+ lockLine +:+ nl.

Definition scoped (name registryUrl : string) : Upgrade :=
  {| depName := Some name; registryUrls := Some [registryUrl] |}.

End Npmrc.

(** ** [lib/modules/manager/nuget/artifacts.ts] *)

Module Nuget.

(** A thrown failure: its [message], and the [stdout] an [ExecError]
    carries. *)
Record Err := {
  message : string;
  stdout : option string;
}.

(** A registry of [nuget/types]; the source calls its second field [name]. *)
Record Registry := {
  url : string;
  registryName : option string;
}.

(** An entry of the dependent-file graph. *)
Record ProjectFile := {
  name : string;
  isLeaf : bool;
}.

Record Sdk := { version : option string }.
Record GlobalJson := { sdk : option Sdk }.

Record ToolConstraint := {
  toolName : string;
  constraint : option string;
}.

Record ExecOptions := {
  docker : unit;
  extraEnv : list (string * string);
  toolConstraints : list ToolConstraint;
}.

Record UpdateArtifactsConfig := {
  constraints_dotnet : option string;
  postUpdateOptions : option (list string);
  isLockFileMaintenance : option bool;
}.

Record UpdateArtifact := {
  packageFileName : string;
  newPackageFileContent : string;
  config : UpdateArtifactsConfig;
  updatedDeps : list Upgrade;
}.

Inductive UpdateArtifactsResult :=
| Addition (path contents : string)
| ArtifactError (lockFile stderr : string).

(** The calls that change something outside the process, in the order
    made.  Calls that only read ([getDependentPackageFiles], [getFiles],
    [getLocalFiles], [getConfiguredRegistries], [findGlobalJson]) leave no
    event. *)
Inductive Event :=
| WriteLocalFile (path contents : string)
| EnsureDir (dir : string)
| OutputCacheFile (path contents : string)
| Exec (cmds : list string) (opts : ExecOptions).

(** The files of the base branch ([util/git]), the files of the working
    copy ([util/fs]) and the trace of outside calls. *)
Record World := {
  committed : gmap string string;
  localFiles : gmap string string;
  trace : list Event;
}.

Definition emitted (ev : Event) (w : World) : World :=
  {| committed := committed w; localFiles := localFiles w;
     trace := trace w ++ [ev] |}.

Definition withLocalFiles (files : gmap string string) (w : World) : World :=
  {| committed := committed w; localFiles := files; trace := trace w |}.

(** *** The monad of asynchronous code that may throw *)

Inductive Outcome (A : Type) :=
| Returned (a : A)
| Thrown (e : Err).
Arguments Returned {A} a.
Arguments Thrown {A} e.

Definition M (A : Type) : Type := World -> Outcome A * World.

Definition ret {A} (a : A) : M A := fun w => (Returned a, w).

Definition bind {A B} (m : M A) (k : A -> M B) : M B :=
  fun w =>
    match m w with
    | (Returned a, w') => k a w'
    | (Thrown e, w') => (Thrown e, w')
    end.

Definition throw {A} (e : Err) : M A := fun w => (Thrown e, w).

(** [try { body } catch (err) { handler }] *)
Definition tryCatch {A} (body : M A) (handler : Err -> M A) : M A :=
  fun w =>
    match body w with
    | (Returned a, w') => (Returned a, w')
    | (Thrown e, w') => handler e w'
    end.

(** A collaborator that only reads. *)
Definition reading {A} (f : World -> A) : M A := fun w => (Returned (f w), w).

Notation "'await' x := m 'in' k" := (bind m (fun x => k))
  (at level 10, x name, m at level 100, k at level 200).

(** *** Collaborators that are not part of the two files *)

Record Env := {
  TEMPORARY_ERROR : string;
  NUGET_CENTRAL_FILE : string;
  MSBUILD_CENTRAL_FILE : string;
  GLOBAL_JSON : string;
  quote : string -> string;
  upath_join : string -> string -> string;
  privateCacheDir : string;
  getSiblingFileName : string -> string -> string;
  createNuGetConfigXml : list Registry -> string;
  getDefaultRegistries : list Registry;
  getDependentPackageFiles : World -> string -> bool -> bool -> list ProjectFile;
  getConfiguredRegistries : World -> string -> option (list Registry);
  findGlobalJson : World -> string -> option GlobalJson;
  (** Whether a write of the working copy or of the cache fails here. *)
  writeFailure : World -> string -> string -> option Err;
  ensureDirFailure : World -> string -> option Err;
  outputCacheFailure : World -> string -> string -> option Err;
  (** What the commands leave in the working copy, and how they fail. *)
  toolchain : World -> list string -> ExecOptions -> gmap string string * option Err;
}.

(** Modelled from the spec: [getFiles] of [util/git] and [getLocalFiles] of
    [util/fs] are not in the two files; section 4.3 gives their contract,
    [readAll(names) -> mapping name -> content|absent], every name of the
    batch being a key of the mapping. *)
Definition readAll (files : gmap string string) (names : list string)
  : gmap string (option string) :=
  foldl (fun snapshot n => <[n := files !! n]> snapshot) ∅ names.

Section Artifacts.
Variable env : Env.

Definition getFiles (names : list string) : M (gmap string (option string)) :=
  reading (fun w => readAll (committed w) names).

Definition getLocalFiles (names : list string) : M (gmap string (option string)) :=
  reading (fun w => readAll (localFiles w) names).

Definition writeLocalFile (path contents : string) : M unit :=
  fun w =>
    match writeFailure env w path contents with
    | Some e => (Thrown e, emitted (WriteLocalFile path contents) w)
    | None =>
        (Returned tt,
         emitted (WriteLocalFile path contents)
           (withLocalFiles (<[path := contents]> (localFiles w)) w))
    end.

Definition ensureDir (dir : string) : M unit :=
  fun w =>
    match ensureDirFailure env w dir with
    | Some e => (Thrown e, emitted (EnsureDir dir) w)
    | None => (Returned tt, emitted (EnsureDir dir) w)
    end.

Definition outputCacheFile (path contents : string) : M unit :=
  fun w =>
    match outputCacheFailure env w path contents with
    | Some e => (Thrown e, emitted (OutputCacheFile path contents) w)
    | None => (Returned tt, emitted (OutputCacheFile path contents) w)
    end.

Definition exec (cmds : list string) (opts : ExecOptions) : M unit :=
  fun w =>
    let '(files, failure) := toolchain env w cmds opts in
    let w' := emitted (Exec cmds opts) (withLocalFiles files w) in
    match failure with
    | Some e => (Thrown e, w')
    | None => (Returned tt, w')
    end.

(** The first loop of [createCachedNuGetConfigFile] on
    [(urlSet, combinedRegistries)]. *)
Definition addConfigured (st : gset string * list Registry) (r : Registry)
  : gset string * list Registry :=
  if Js.truthy (Some (url r)) && negb (bool_decide (url r ∈ st.1))
  then ({[url r]} ∪ st.1, st.2 ++ [r])
  else st.

(** The second loop, over the additional registry URLs. *)
Definition addUrl (st : gset string * list Registry) (u : string)
  : gset string * list Registry :=
  if negb (Js.truthy (Some u)) then st
  else if negb (bool_decide (u ∈ st.1))
  then ({[u]} ∪ st.1, st.2 ++ [{| url := u; registryName := None |}])
  else st.

Definition createCachedNuGetConfigFile (nugetCacheDir packageFileName : string)
    (additionalRegistryUrls : list string) : M string :=
  await configured :=
    reading (fun w => getConfiguredRegistries env w packageFileName) in
  let configuredRegistries := default (getDefaultRegistries env) configured in
  let combinedRegistries :=
    (foldl addUrl (foldl addConfigured (∅, []) configuredRegistries)
           additionalRegistryUrls).2 in
  let contents := createNuGetConfigXml env combinedRegistries in
  let cachedNugetConfigFile := upath_join env nugetCacheDir "nuget.config" in
  await _ := ensureDir nugetCacheDir in
  await _ := outputCacheFile cachedNugetConfigFile contents in
  ret cachedNugetConfigFile.

Definition restoreCommand (nugetConfigFile fileName : string) : string :=
  "dotnet restore " +:+ quote env fileName +:+
  " --force-evaluate --configfile " +:+ quote env nugetConfigFile.

Definition workloadCommand (nugetConfigFile : string) : string :=
  "dotnet workload restore --configfile " +:+ quote env nugetConfigFile.

Definition includesOption (opt : string) (opts : option (list string)) : bool :=
  match opts with
  | Some l => bool_decide (opt ∈ l)
  | None => false
  end.

Definition restoreCommands (config : UpdateArtifactsConfig)
    (nugetConfigFile : string) (dependentPackageFileNames : list string)
  : list string :=
  let cmds := map (restoreCommand nugetConfigFile) dependentPackageFileNames in
  if includesOption "dotnetWorkloadRestore" (postUpdateOptions config)
  then workloadCommand nugetConfigFile :: cmds
  else cmds.

Definition runDotnetRestore (packageFileName : string)
    (dependentPackageFileNames : list string) (config : UpdateArtifactsConfig)
    (additionalRegistryUrls : list string) : M unit :=
  let nugetCacheDir := upath_join env (privateCacheDir env) "nuget" in
  await nugetConfigFile :=
    createCachedNuGetConfigFile nugetCacheDir packageFileName
                                additionalRegistryUrls in
  await dotnetVersion :=
    match constraints_dotnet config with
    | Some v => ret (Some v)
    | None =>
        await globalJson := reading (fun w => findGlobalJson env w packageFileName) in
        ret (match globalJson with
             | Some g => match sdk g with Some s => version s | None => None end
             | None => None
             end)
    end in
  let execOptions :=
    {| docker := tt;
       extraEnv := [("NUGET_PACKAGES", upath_join env nugetCacheDir "packages");
                    ("MSBUILDDISABLENODEREUSE", "1")];
       toolConstraints := [{| toolName := "dotnet"; constraint := dotnetVersion |}] |} in
  exec (restoreCommands config nugetConfigFile dependentPackageFileNames)
       execOptions.

(** [Array.from(new Set(urls))]: the first occurrences, in order. *)
Definition dedupe (urls : list string) : list string :=
  (foldl (fun (st : gset string * list string) u =>
            if bool_decide (u ∈ st.1) then st
            else ({[u]} ∪ st.1, st.2 ++ [u]))
         (∅, []) urls).2.

Definition isCentralManagement (packageFileName : string) : bool :=
  String.eqb packageFileName (NUGET_CENTRAL_FILE env)
  || String.eqb packageFileName (MSBUILD_CENTRAL_FILE env)
  || Js.endsWith ("/" +:+ NUGET_CENTRAL_FILE env) packageFileName
  || Js.endsWith ("/" +:+ MSBUILD_CENTRAL_FILE env) packageFileName.

Definition isGlobalJson (packageFileName : string) : bool :=
  String.eqb packageFileName (GLOBAL_JSON env).

(** [regEx(/(?:cs|vb|fs)proj$/i).test(packageFileName)] *)
Definition isProjectFile (packageFileName : string) : bool :=
  let lowered := Js.toLowerCase packageFileName in
  Js.endsWith "csproj" lowered || Js.endsWith "vbproj" lowered
  || Js.endsWith "fsproj" lowered.

(** [deps.filter((d) => d.isLeaf).map((d) => d.name)] *)
Definition packageFiles (deps : list ProjectFile) : list string :=
  map name (List.filter isLeaf deps).

(** [deps.map((f) => getSiblingFileName(f.name, 'packages.lock.json'))] *)
Definition lockFileNames (deps : list ProjectFile) : list string :=
  map (fun f => getSiblingFileName env (name f) "packages.lock.json") deps.

(** [Object.values(snapshot).some((val) => !!val)] *)
Definition hasLockFileContent (snapshot : gmap string (option string)) : bool :=
  existsb Js.truthy (map snd (map_to_list snapshot)).

(** [snapshot[lockFileName]] where only a string matters: [undefined] and
    [null] are both [None] here. *)
Definition contentOf (snapshot : gmap string (option string))
    (lockFileName : string) : option string :=
  mjoin (snapshot !! lockFileName).

(** [existing[lockFileName] === updated[lockFileName]] *)
Definition sameContent (existing updated : gmap string (option string))
    (lockFileName : string) : bool :=
  bool_decide (existing !! lockFileName = updated !! lockFileName).

(** One iteration of the loop that fills [retArray]. *)
Definition diffStep (existing updated : gmap string (option string))
    (retArray : list UpdateArtifactsResult) (lockFileName : string)
  : list UpdateArtifactsResult :=
  if sameContent existing updated lockFileName then retArray
  else if Js.truthy (contentOf updated lockFileName)
  then retArray ++ [Addition lockFileName
                      (default EmptyString (contentOf updated lockFileName))]
  else retArray.

(** The handler of the [catch] clause. *)
Definition classify (lockFileNames : list string) (err : Err)
  : M (option (list UpdateArtifactsResult)) :=
  if String.eqb (message err) (TEMPORARY_ERROR env) then throw err
  else ret (Some [ArtifactError (Js.join ", " lockFileNames)
                                (default (message err) (stdout err))]).

Definition updateArtifacts (req : UpdateArtifact)
  : M (option (list UpdateArtifactsResult)) :=
  let combinedRegistryUrls :=
    dedupe (flat_map (fun d => default [] (registryUrls d)) (updatedDeps req)) in
  let central := isCentralManagement (packageFileName req) in
  let global := isGlobalJson (packageFileName req) in
  if negb central && negb global && negb (isProjectFile (packageFileName req))
  then ret None
  else
    await deps :=
      reading (fun w => getDependentPackageFiles env w (packageFileName req)
                          central global) in
    let leaves := packageFiles deps in
    let watched := lockFileNames deps in
    await existingLockFileContentMap := getFiles watched in
    if negb (hasLockFileContent existingLockFileContentMap) then ret None
    else
      tryCatch
        (if Nat.eqb (length (updatedDeps req)) 0
            && negb (bool_decide (isLockFileMaintenance (config req) = Some true))
         then ret None
         else
           await _ := writeLocalFile (packageFileName req)
                                     (newPackageFileContent req) in
           await _ := runDotnetRestore (packageFileName req) leaves (config req)
                                       combinedRegistryUrls in
           await newLockFileContentMap := getLocalFiles watched in
           let retArray :=
             foldl (diffStep existingLockFileContentMap newLockFileContentMap)
                   [] watched in
           ret (if Nat.ltb 0 (length retArray) then Some retArray else None))
        (classify watched).

(** *** Names for stating the properties *)

(** The answer of the graph lookup for this request. *)
Definition dependents (req : UpdateArtifact) (w : World) : list ProjectFile :=
  getDependentPackageFiles env w (packageFileName req)
    (isCentralManagement (packageFileName req))
    (isGlobalJson (packageFileName req)).

(** The lock file names the run watches. *)
Definition watchedLockFiles (req : UpdateArtifact) (w : World) : list string :=
  lockFileNames (dependents req w).

(** The manifest is of a kind the manager regenerates lock files for. *)
Definition appliesTo (req : UpdateArtifact) : bool :=
  isCentralManagement (packageFileName req)
  || isGlobalJson (packageFileName req)
  || isProjectFile (packageFileName req).

(** There is something to regenerate: an upgrade, or lock file maintenance. *)
Definition regenerates (req : UpdateArtifact) : bool :=
  negb (Nat.eqb (length (updatedDeps req)) 0)
  || bool_decide (isLockFileMaintenance (config req) = Some true).

(** The manifest write of a request. *)
Definition writeManifest (req : UpdateArtifact) : M unit :=
  writeLocalFile (packageFileName req) (newPackageFileContent req).

(** The toolchain run of a request, on the files it is given. *)
Definition restore (req : UpdateArtifact) (files : list string) : M unit :=
  runDotnetRestore (packageFileName req) files (config req)
    (dedupe (flat_map (fun d => default [] (registryUrls d)) (updatedDeps req))).

(** The path of the generated [nuget.config]. *)
Definition nugetConfigFile : string :=
  upath_join env (upath_join env (privateCacheDir env) "nuget") "nuget.config".

(** The changeset of a snapshot pair in closed form, to compare with the
    loop: the watched names whose content differs and is not empty
    afterwards, each with its new content. *)
Definition changedTo (before after : gmap string string) (n : string) : bool :=
  negb (bool_decide (before !! n = after !! n)) && Js.truthy (after !! n).

Definition additions (before after : gmap string string) (names : list string)
  : list UpdateArtifactsResult :=
  map (fun n => Addition n (default EmptyString (after !! n)))
      (List.filter (changedTo before after) names).

(** The registries [createCachedNuGetConfigFile] hands to the formatter:
    its two loops, run one after the other. *)
Definition combinedRegistries (configured : list Registry)
    (additionalRegistryUrls : list string) : list Registry :=
  (foldl addUrl (foldl addConfigured (∅, []) configured) additionalRegistryUrls).2.

(** The cache directory of the manager. *)
Definition nugetCacheDir : string := upath_join env (privateCacheDir env) "nuget".

(** The version the [dotnet] tool is constrained to. *)
Definition dotnetVersionOf (config : UpdateArtifactsConfig)
    (globalJson : option GlobalJson) : option string :=
  match constraints_dotnet config with
  | Some v => Some v
  | None =>
      match globalJson with
      | Some g => match sdk g with Some s => version s | None => None end
      | None => None
      end
  end.

(** The options [runDotnetRestore] passes to [exec]. *)
Definition restoreOptions (dotnetVersion : option string) : ExecOptions :=
  {| docker := tt;
     extraEnv := [("NUGET_PACKAGES", upath_join env nugetCacheDir "packages");
                  ("MSBUILDDISABLENODEREUSE", "1")];
     toolConstraints := [{| toolName := "dotnet"; constraint := dotnetVersion |}] |}.

(** The registry URLs collected from the updated dependencies. *)
Definition combinedRegistryUrls (req : UpdateArtifact) : list string :=
  dedupe (flat_map (fun d => default [] (registryUrls d)) (updatedDeps req)).

End Artifacts.

(** *** A concrete environment, for running the model *)

Module Demo.

(** The directory part of a path, with its closing slash. *)
Fixpoint parentDir (s : string) : string :=
  match s with
  | EmptyString => EmptyString
  | String c s' => if Js.includes "/" s then String c (parentDir s') else EmptyString
  end.

Definition sibling (fileName siblingName : string) : string :=
  parentDir fileName +:+ siblingName.

(** The environment of a run: the graph lookup answers [deps], the
    manifest write fails with [writeErr] if given, and the toolchain
    leaves [after] in the working copy and fails with [execErr] if
    given. *)
Definition demoEnv (deps : list ProjectFile) (writeErr : option Err)
    (after : gmap string string -> gmap string string)
    (execErr : option Err) : Env :=
  {| TEMPORARY_ERROR := "temporary-error";
     NUGET_CENTRAL_FILE := "Directory.Packages.props";
     MSBUILD_CENTRAL_FILE := "Packages.props";
     GLOBAL_JSON := "global.json";
     quote := fun s => s;
     upath_join := fun a b => a +:+ "/" +:+ b;
     privateCacheDir := "/tmp/cache";
     getSiblingFileName := sibling;
     createNuGetConfigXml := fun rs => Js.join "," (map url rs);
     getDefaultRegistries :=
       [{| url := "https://api.nuget.org/v3/index.json"; registryName := Some "nuget.org" |}];
     getDependentPackageFiles := fun _ _ _ _ => deps;
     getConfiguredRegistries := fun _ _ => None;
     findGlobalJson := fun _ _ => None;
     writeFailure := fun _ _ _ => writeErr;
     ensureDirFailure := fun _ _ => None;
     outputCacheFailure := fun _ _ _ => None;
     toolchain := fun w _ _ => (after (localFiles w), execErr) |}.

Definition world (files : gmap string string) : World :=
  {| committed := files; localFiles := files; trace := [] |}.

Definition request (fileName : string) : UpdateArtifact :=
  {| packageFileName := fileName;
     newPackageFileContent := "<Project/>";
     config := {| constraints_dotnet := None; postUpdateOptions := None;
                  isLockFileMaintenance := None |};
     updatedDeps := [{| depName := Some "Serilog";
                        registryUrls := Some ["https://api.nuget.org/v3/index.json"] |}] |}.

Definition leafProject : list ProjectFile :=
  [{| name := "app/app.csproj"; isLeaf := true |}].

Definition centralTree : list ProjectFile :=
  [{| name := "Directory.Packages.props"; isLeaf := false |};
   {| name := "app/app.csproj"; isLeaf := true |}].

Definition lockFile : string := "app/packages.lock.json".

(** A failed restore, as [exec] reports it. *)
Definition restoreFailed : Err :=
  {| message := "Command failed: dotnet restore";
     stdout := Some "error NU1101: Unable to find package" |}.

(** The restore rewrites the lock file of the project. *)
Definition envRewriting : Env :=
  demoEnv leafProject None (fun files => <[lockFile := "new"]> files) None.

(** The restore leaves an empty lock file. *)
Definition envEmptying : Env :=
  demoEnv leafProject None (fun files => <[lockFile := EmptyString]> files) None.

(** The restore removes the lock file. *)
Definition envDeleting : Env :=
  demoEnv leafProject None (fun files => delete lockFile files) None.

(** The restore fails. *)
Definition envFailing : Env :=
  demoEnv leafProject None (fun files => files) (Some restoreFailed).

(** A central version file with one project under it; the restore rewrites
    the lock file next to the central file. *)
Definition envCentral : Env :=
  demoEnv centralTree None (fun files => <["packages.lock.json" := "new"]> files) None.

(** A request with nothing to update and no lock file maintenance. *)
Definition idleRequest (fileName : string) : UpdateArtifact :=
  {| packageFileName := fileName;
     newPackageFileContent := "<Project/>";
     config := {| constraints_dotnet := None; postUpdateOptions := None;
                  isLockFileMaintenance := None |};
     updatedDeps := [] |}.



End Demo.
End Nuget.

(** * Properties *)

(** ** String lemmas *)

Module JsFacts.

Lemma append_cons (c : ascii) (a b : string) :
  String c a +:+ b = String c (a +:+ b).
Proof. reflexivity. Qed.

Lemma append_nil_l (b : string) : EmptyString +:+ b = b.
Proof. reflexivity. Qed.

(** A needle without [c] cannot start across a [c]. *)
Lemma startsWith_app_sep (c : ascii) (b needle : string) :
  Js.avoids c needle = true ->
  forall x, needle <> EmptyString ->
    Js.startsWith needle (x +:+ String c b) = Js.startsWith needle x.
Proof.
  intros Hav. induction needle as [|a needle IH]; intros x Hne; [congruence|].
  simpl in Hav. apply andb_prop in Hav as [Ha Hav].
  destruct x as [|d x].
  - rewrite append_nil_l. simpl.
    destruct (Ascii.eqb a c); [discriminate | reflexivity].
  - rewrite append_cons. simpl. destruct (Ascii.eqb a d); [|reflexivity].
    destruct needle as [|a' needle']; [reflexivity|].
    apply IH; [assumption | discriminate].
Qed.

Lemma includes_app_sep (c : ascii) (needle : string) :
  Js.avoids c needle = true -> needle <> EmptyString ->
  forall a b,
    Js.includes needle a = false -> Js.includes needle b = false ->
    Js.includes needle (a +:+ String c b) = false.
Proof.
  intros Hav Hne a b. induction a as [|d a IH]; intros Ha Hb.
  - rewrite append_nil_l. simpl. rewrite Hb, orb_false_r.
    rewrite <- (append_nil_l (String c b)).
    rewrite startsWith_app_sep by assumption.
    destruct needle; [congruence | reflexivity].
  - rewrite append_cons. simpl in *.
    apply orb_false_elim in Ha as [Hs Ha].
    rewrite IH by assumption. rewrite orb_false_r.
    rewrite <- append_cons, startsWith_app_sep by assumption. exact Hs.
Qed.

Lemma includes_join (c : ascii) (needle : string) (pieces : list string) :
  Js.avoids c needle = true -> needle <> EmptyString ->
  Forall (fun p => Js.includes needle p = false) pieces ->
  Js.includes needle (Js.join (String c EmptyString) pieces) = false.
Proof.
  intros Hav Hne. induction 1 as [|p rest Hp Hrest IH].
  - destruct needle; [congruence | reflexivity].
  - destruct rest as [|q rest]; [exact Hp|].
    change (Js.join (String c EmptyString) (p :: q :: rest))
      with (p +:+ String c (Js.join (String c EmptyString) (q :: rest))).
    apply includes_app_sep; assumption.
Qed.

End JsFacts.

(** ** The npm registry configuration *)

Module NpmrcFacts.
Import Npmrc.

Section Resolve.
Variable findLocalSiblingOrParent : string -> string -> option string.
Variable readLocalFile : string -> option string.
Variable exposeAllEnv : bool.

(** C5.  When no repository [.npmrc] is found, the caller's text [t] is
    the resolved text, unchanged, and there is no file name: resolving an
    already merged text again gives it back. *)
Theorem resolveNpmrc_without_repo_file (packageFile t : string)
    (merge : option bool) :
  findLocalSiblingOrParent packageFile ".npmrc" = None ->
  resolveNpmrc findLocalSiblingOrParent readLocalFile exposeAllEnv packageFile
    {| npmrc := Some t; npmrcMerge := merge |}
  = {| res_npmrc := Some t; npmrcFileName := None |}.
Proof. intros Hfind. unfold resolveNpmrc. rewrite Hfind. reflexivity. Qed.

(** C9.  When a repository [.npmrc] is found but cannot be read as a
    string, the resolved text is undefined whatever the caller supplied,
    and the file name found is still reported. *)
Theorem resolveNpmrc_unreadable_repo_file (packageFile f : string)
    (config : Config) :
  findLocalSiblingOrParent packageFile ".npmrc" = Some f ->
  f <> EmptyString ->
  readLocalFile f = None ->
  resolveNpmrc findLocalSiblingOrParent readLocalFile exposeAllEnv packageFile
    config
  = {| res_npmrc := None; npmrcFileName := Some f |}.
Proof.
  intros Hfind Hf Hread. unfold resolveNpmrc. rewrite Hfind. simpl.
  destruct f as [|c f]; [congruence|]. simpl. rewrite Hread. reflexivity.
Qed.
End Resolve.

(** What the interpolation filter leaves holds no marker. *)
Lemma stripVariables_hidden (repoNpmrc : string) :
  Js.includes marker (stripVariables false repoNpmrc) = false.
Proof.
  unfold stripVariables. rewrite andb_true_r.
  destruct (Js.includes marker repoNpmrc) eqn:Hinc; [|exact Hinc].
  apply JsFacts.includes_join; [reflexivity | discriminate |].
  apply List.Forall_forall. intros line Hin.
  apply List.filter_In in Hin as [_ Hline].
  now apply negb_true_iff in Hline.
Qed.

Lemma stripVariables_exposed (repoNpmrc : string) :
  stripVariables true repoNpmrc = repoNpmrc.
Proof. unfold stripVariables. now rewrite andb_false_r. Qed.

(** C6, as the code has it.  On the merge path the repository text first
    loses its package-lock lines, then passes the interpolation filter.
    With [exposeAllEnv] unset the text that is merged holds no [=${] at
    all: it is made of the lines without the marker, in order.  With the
    flag set the filter is skipped and the text left by the package-lock
    stripping is merged byte for byte; that stripping changes nothing when
    the repository text does not mention package-lock. *)
Theorem resolveNpmrc_variable_lines
    (findLocalSiblingOrParent : string -> string -> option string)
    (readLocalFile : string -> option string) (exposeAllEnv : bool)
    (packageFile f repoNpmrc : string) (config : Config) :
  findLocalSiblingOrParent packageFile ".npmrc" = Some f ->
  f <> EmptyString ->
  readLocalFile f = Some repoNpmrc ->
  npmrc config = None \/ npmrcMerge config = Some true ->
  let stripped := stripPackageLock repoNpmrc in
  let kept := List.filter (fun line => negb (Js.includes marker line))
                          (splitNewline stripped) in
  exists merged,
    res_npmrc (resolveNpmrc findLocalSiblingOrParent readLocalFile
                            exposeAllEnv packageFile config)
    = Some (callerPrefix (npmrc config) +:+ merged)
    /\ (exposeAllEnv = false ->
        Js.includes marker merged = false
        /\ (Js.includes marker stripped = true -> merged = Js.join nl kept)
        /\ (Js.includes marker stripped = false -> merged = stripped))
    /\ (exposeAllEnv = true -> merged = stripped)
    /\ (Js.includes packageLock repoNpmrc = false -> stripped = repoNpmrc).
Proof.
  intros Hfind Hf Hread Hmerge stripped kept.
  exists (stripVariables exposeAllEnv stripped).
  split; [|split; [|split]].
  - unfold resolveNpmrc. rewrite Hfind.
    destruct f as [|c f]; [congruence|]. simpl. rewrite Hread.
    destruct Hmerge as [Hnone | Hon]; [now rewrite Hnone|].
    rewrite Hon. simpl. now rewrite andb_false_r.
  - intros ->. split; [apply stripVariables_hidden|].
    unfold stripVariables. split; intros Hinc; now rewrite Hinc.
  - intros ->. apply stripVariables_exposed.
  - intros Hinc. subst stripped. unfold stripPackageLock. now rewrite Hinc.
Qed.

Lemma resolveNpmrc_variable_lines_witness :
  exists merged,
    res_npmrc (resolveNpmrc (fun _ _ => Some ".npmrc")
                 (fun _ => Some ("always-auth=true" +:+ nl +:+ "_auth=${TOKEN}" +:+ nl))
                 false "package.json"
                 {| npmrc := Some "registry=https://r/"; npmrcMerge := Some true |})
    = Some (callerPrefix (Some "registry=https://r/") +:+ merged)
    /\ Js.includes marker merged = false.
Proof.
  destruct (resolveNpmrc_variable_lines (fun _ _ => Some ".npmrc")
              (fun _ => Some ("always-auth=true" +:+ nl +:+ "_auth=${TOKEN}" +:+ nl))
              false "package.json" ".npmrc"
              ("always-auth=true" +:+ nl +:+ "_auth=${TOKEN}" +:+ nl)
              {| npmrc := Some "registry=https://r/"; npmrcMerge := Some true |}
              eq_refl ltac:(discriminate) eq_refl (or_intror eq_refl))
    as (merged & Hres & Hhidden & _).
  exists merged. split; [exact Hres | now apply Hhidden].
Defined.

(** With [exposeAllEnv] set, a package-lock line that holds the marker is
    still removed, by the package-lock stripping. *)
Lemma resolveNpmrc_exposed_line_removed :
  In lockLine (splitNewline repoText)
  /\ Js.includes marker lockLine = true
  /\ res_npmrc (resolveNpmrc (fun _ _ => Some ".npmrc") (fun _ => Some repoText)
                  true "package.json" {| npmrc := None; npmrcMerge := None |})
     = Some ("registry=https://r/" +:+ nl).
Proof. vm_compute. tauto. Qed.

Lemma resolveNpmrc_without_repo_file_witness :
  resolveNpmrc (fun _ _ => None) (fun _ => None) false "package.json"
    {| npmrc := Some ("registry=https://r/" +:+ nl); npmrcMerge := Some true |}
  = {| res_npmrc := Some ("registry=https://r/" +:+ nl); npmrcFileName := None |}.
Proof. apply resolveNpmrc_without_repo_file. reflexivity. Defined.

Lemma resolveNpmrc_unreadable_repo_file_witness :
  resolveNpmrc (fun _ _ => Some ".npmrc") (fun _ => None) false "package.json"
    {| npmrc := Some "registry=https://r/"; npmrcMerge := Some true |}
  = {| res_npmrc := None; npmrcFileName := Some ".npmrc" |}.
Proof.
  apply resolveNpmrc_unreadable_repo_file; [reflexivity | discriminate | reflexivity].
Defined.

(** *** Registry scopes *)

(** C8.  A scope named like a property every object inherits is one the
    map form never records: [scope in scopes] is already true on the empty
    object, so the first upgrade of that scope is skipped as if seen, and
    the map comes back absent, while the line form emits its entry. *)
Theorem getRegistryYarnrcScopes_inherited_scope :
  getRegistryNpmrcLines [scoped "@constructor/pkg" "https://r/"]
  = ["@constructor:registry=https://r/"]
  /\ getRegistryYarnrcScopes [scoped "@constructor/pkg" "https://r/"] = None.
Proof. split; vm_compute; reflexivity. Qed.

(** C10.  The two forms do not always cover the same scopes: of the scopes
    [constructor] and [myorg] the line form keeps both and the map form
    only [myorg]. *)
Theorem registry_forms_cover_different_scopes :
  getRegistryNpmrcLines [scoped "@constructor/pkg" "https://r/";
                         scoped "@myorg/a" "https://m/"]
  = ["@constructor:registry=https://r/"; "@myorg:registry=https://m/"]
  /\ getRegistryYarnrcScopes [scoped "@constructor/pkg" "https://r/";
                              scoped "@myorg/a" "https://m/"]
     = Some {[ "myorg" := "https://m/" ]}.
Proof. split; vm_compute; reflexivity. Qed.

(** *** The guards of the two loops *)

Lemma qualifies_none (u : Upgrade) :
  qualifies u = None
  <-> Js.isNonEmptyString (firstRegistryUrl u) = false
      \/ Js.isNonEmptyString (depName u) = false
      \/ Js.startsWith "@" (default EmptyString (depName u)) = false.
Proof.
  unfold qualifies.
  destruct (Js.isNonEmptyString (firstRegistryUrl u)),
           (Js.isNonEmptyString (depName u)),
           (Js.startsWith "@" (default EmptyString (depName u)));
    simpl; split; intros H; try discriminate; auto;
    destruct H as [H|[H|H]]; discriminate.
Qed.

(** X10.  An upgrade that fails a guard leaves both outputs as they are
    without it, wherever it stands in the list. *)
Lemma registry_forms_skip (before after : list Upgrade) (u : Upgrade) :
  qualifies u = None ->
  getRegistryNpmrcLines (before ++ u :: after) = getRegistryNpmrcLines (before ++ after)
  /\ getRegistryYarnrcScopes (before ++ u :: after)
     = getRegistryYarnrcScopes (before ++ after).
Proof.
  intros Hq. unfold getRegistryNpmrcLines, getRegistryYarnrcScopes.
  rewrite !foldl_app. simpl.
  assert (Hl : forall st, linesStep st u = st)
    by (intros st; unfold linesStep; now rewrite Hq).
  assert (Hs : forall scopes, scopesStep scopes u = scopes)
    by (intros scopes; unfold scopesStep; now rewrite Hq).
  now rewrite Hl, Hs.
Qed.

Lemma qualifies_firstUrlOnly (u : Upgrade) :
  qualifies (firstUrlOnly u) = qualifies u.
Proof.
  unfold qualifies, firstUrlOnly, firstRegistryUrl. simpl.
  destruct (registryUrls u) as [[|registryUrl rest]|]; reflexivity.
Qed.

Lemma linesStep_firstUrlOnly (upgrades : list Upgrade) :
  forall st, foldl linesStep st (firstUrlOnly <$> upgrades)
             = foldl linesStep st upgrades.
Proof.
  induction upgrades as [|u upgrades IH]; intros st; [reflexivity|].
  simpl. rewrite <- IH. f_equal. unfold linesStep.
  now rewrite qualifies_firstUrlOnly.
Qed.

Lemma scopesStep_firstUrlOnly (upgrades : list Upgrade) :
  forall scopes, foldl scopesStep scopes (firstUrlOnly <$> upgrades)
                 = foldl scopesStep scopes upgrades.
Proof.
  induction upgrades as [|u upgrades IH]; intros scopes; [reflexivity|].
  simpl. rewrite <- IH. f_equal. unfold scopesStep.
  now rewrite qualifies_firstUrlOnly.
Qed.

(** X11.  Only the first registry URL of an upgrade is read: cutting every
    upgrade down to its first URL changes neither output. *)
Lemma registry_forms_first_url (upgrades : list Upgrade) :
  getRegistryNpmrcLines (firstUrlOnly <$> upgrades) = getRegistryNpmrcLines upgrades
  /\ getRegistryYarnrcScopes (firstUrlOnly <$> upgrades)
     = getRegistryYarnrcScopes upgrades.
Proof.
  unfold getRegistryNpmrcLines, getRegistryYarnrcScopes.
  now rewrite linesStep_firstUrlOnly, scopesStep_firstUrlOnly.
Qed.

(** *** The two forms side by side *)

Lemma split_first (sep c : ascii) (s : string) :
  Ascii.eqb c sep = false ->
  Js.first (Js.split sep (String c s)) = String c (Js.first (Js.split sep s)).
Proof.
  intros Hc. simpl. rewrite Hc.
  destruct s as [|d s]; [reflexivity|]. simpl.
  destruct (Ascii.eqb d sep); [reflexivity|].
  destruct (Js.cons_head d (Js.split sep s)); reflexivity.
Qed.

Lemma qualifies_scoped (u : Upgrade) (name registryUrl : string) :
  qualifies u = Some (name, registryUrl) ->
  Js.first (Js.split "/" name) = String "@" (scopeOf name).
Proof.
  unfold qualifies, scopeOf.
  destruct (negb (Js.isNonEmptyString (firstRegistryUrl u))
            || negb (Js.isNonEmptyString (depName u))); [discriminate|].
  destruct (Js.startsWith "@" (default EmptyString (depName u))) eqn:Hat;
    [|discriminate].
  simpl. intros Heq. injection Heq as Hname _. subst name.
  destruct (default EmptyString (depName u)) as [|c rest]; [discriminate Hat|].
  cbn [Js.startsWith] in Hat.
  destruct (Ascii.eqb "@" c) eqn:Hc; [|discriminate Hat].
  apply Ascii.eqb_eq in Hc. subst c.
  now rewrite split_first.
Qed.

(** The invariant of the two loops run side by side on scopes that are no
    inherited property names: both hold the same entries [ps]. *)
Lemma registry_forms_invariant (upgrades : list Upgrade) :
  Forall (fun u => forall name registryUrl,
            qualifies u = Some (name, registryUrl) ->
            scopeOf name ∉ Js.objectPrototypeKeys) upgrades ->
  forall (ps : list (string * string)) (seen : gset string),
    NoDup ps.*1 ->
    (forall scope, String "@" scope ∈ seen <-> scope ∈ ps.*1) ->
    exists ps',
      NoDup ps'.*1
      /\ (foldl linesStep (seen, registryLine <$> ps) upgrades).2
         = registryLine <$> ps'
      /\ foldl scopesStep (list_to_map ps) upgrades = list_to_map ps'
      /\ (ps' = [] -> ps = []).
Proof.
  induction 1 as [|u upgrades Hu _ IH]; intros ps seen Hnodup Hseen; simpl.
  - exists ps. auto.
  - unfold linesStep at 2, scopesStep at 2.
    destruct (qualifies u) as [[name registryUrl]|] eqn:Hq; [|now apply IH].
    rewrite (qualifies_scoped u name registryUrl Hq).
    fold (scopeOf name). simpl.
    specialize (Hu name registryUrl eq_refl).
    unfold Js.has_property.
    rewrite (bool_decide_eq_false_2 (scopeOf name ∈ Js.objectPrototypeKeys))
      by assumption.
    rewrite orb_false_r.
    destruct (decide (scopeOf name ∈ ps.*1)) as [Hin|Hout].
    + rewrite bool_decide_eq_true_2 by (now apply Hseen).
      rewrite bool_decide_eq_true_2; [now apply IH|].
      apply not_eq_None_Some. intros Hnone.
      now apply not_elem_of_list_to_map in Hnone.
    + rewrite bool_decide_eq_false_2 by (now rewrite Hseen).
      rewrite bool_decide_eq_false_2
        by (rewrite (not_elem_of_list_to_map_1 ps) by assumption;
            intros [? ?]; discriminate).
      rewrite <- list_to_map_snoc by assumption.
      change ((registryLine <$> ps)
              ++ [String "@" (scopeOf name) +:+ ":registry=" +:+ registryUrl])
        with ((registryLine <$> ps) ++ (registryLine <$> [(scopeOf name, registryUrl)])).
      rewrite <- fmap_app.
      destruct (IH (ps ++ [(scopeOf name, registryUrl)])
                   ({[String "@" (scopeOf name)]} ∪ seen))
        as (ps' & Hnodup' & Hlines & Hscopes & Hnil).
      * rewrite fmap_app. apply NoDup_app. repeat split; [assumption| |apply NoDup_singleton].
        intros x Hx Hx'. apply list_elem_of_singleton in Hx'. simpl in Hx'. now subst x.
      * intros scope. rewrite fmap_app, elem_of_app, elem_of_union, elem_of_singleton.
        simpl. rewrite list_elem_of_singleton, Hseen. split.
        -- intros [[= ->]|Hin]; auto.
        -- intros [Hin| ->]; auto.
      * exists ps'. repeat split; try assumption.
        intros Hempty. apply Hnil in Hempty. now destruct ps.
Qed.

(** X9.  Off the inherited property names the two forms agree: there is one list
    of entries, a scope at most once in it, that the line form renders line
    by line and that the map form holds as a map, absent when empty. *)
Lemma registry_forms_agree (upgrades : list Upgrade) :
  Forall (fun u => forall name registryUrl,
            qualifies u = Some (name, registryUrl) ->
            scopeOf name ∉ Js.objectPrototypeKeys) upgrades ->
  exists ps : list (string * string),
    NoDup ps.*1
    /\ getRegistryNpmrcLines upgrades = registryLine <$> ps
    /\ getRegistryYarnrcScopes upgrades
       = match ps with [] => None | _ => Some (list_to_map ps) end.
Proof.
  intros Hok.
  destruct (registry_forms_invariant upgrades Hok [] ∅) as (ps & Hnodup & Hlines & Hscopes & _).
  - constructor.
  - intros scope. simpl. rewrite elem_of_nil. set_solver.
  - exists ps. repeat split; [assumption | exact Hlines |].
    unfold getRegistryYarnrcScopes.
    replace (foldl scopesStep ∅ upgrades) with (list_to_map ps : gmap string string)
      by (symmetry; exact Hscopes).
    destruct ps as [|[k v] ps]; [reflexivity|].
    destruct (Nat.eqb (size (list_to_map ((k, v) :: ps) : gmap string string)) 0) eqn:Hsize;
      [|reflexivity].
    apply Nat.eqb_eq, map_size_empty_iff in Hsize.
    rewrite list_to_map_cons in Hsize. now apply insert_non_empty in Hsize.
Qed.

(** Cases of the test suite. *)
Example getRegistryNpmrcLines_empty : getRegistryNpmrcLines [] = [].
Proof. reflexivity. Qed.

Example getRegistryYarnrcScopes_empty : getRegistryYarnrcScopes [] = None.
Proof. reflexivity. Qed.

Example getRegistryNpmrcLines_deduplicates :
  getRegistryNpmrcLines [scoped "@myorg/a" "https://r/"; scoped "@myorg/b" "https://r/"]
  = ["@myorg:registry=https://r/"].
Proof. vm_compute. reflexivity. Qed.

Example getRegistryYarnrcScopes_deduplicates :
  getRegistryYarnrcScopes [scoped "@myorg/a" "https://r/"; scoped "@myorg/b" "https://r/"]
  = Some {[ "myorg" := "https://r/" ]}.
Proof. vm_compute. reflexivity. Qed.

Example getRegistryNpmrcLines_first_url :
  getRegistryNpmrcLines
    [{| depName := Some "@scope/package";
        registryUrls := Some ["https://primary.example.org/";
                              "https://secondary.example.org/"] |}]
  = ["@scope:registry=https://primary.example.org/"].
Proof. vm_compute. reflexivity. Qed.

Example getRegistryNpmrcLines_skips :
  getRegistryNpmrcLines
    [{| depName := Some "@scope/package"; registryUrls := None |};
     {| depName := Some "@scope/package"; registryUrls := Some [] |};
     {| depName := Some EmptyString; registryUrls := Some ["https://r/"] |};
     {| depName := None; registryUrls := Some ["https://r/"] |};
     scoped "unscoped-package" "https://r/"]
  = [].
Proof. vm_compute. reflexivity. Qed.

Example resolveNpmrc_strips_package_lock :
  resolveNpmrc (fun _ _ => Some ".npmrc")
    (fun _ => Some ("save-exact = true" +:+ nl +:+ "package-lock = false" +:+ nl))
    false "package.json" {| npmrc := None; npmrcMerge := None |}
  = {| res_npmrc := Some ("save-exact = true" +:+ nl);
       npmrcFileName := Some ".npmrc" |}.
Proof. vm_compute. reflexivity. Qed.

Example resolveNpmrc_merges :
  resolveNpmrc (fun _ _ => Some ".npmrc") (fun _ => Some ("repo-npmrc" +:+ nl))
    false "package.json" {| npmrc := Some "config-npmrc"; npmrcMerge := Some true |}
  = {| res_npmrc := Some ("config-npmrc" +:+ nl +:+ "repo-npmrc" +:+ nl);
       npmrcFileName := Some ".npmrc" |}.
Proof. vm_compute. reflexivity. Qed.

End NpmrcFacts.


(** ** The NuGet lock files *)

Module NugetFacts.
Import Nuget.

(** *** Snapshots *)

Lemma readAll_from (files : gmap string string) (names : list string) :
  forall (acc : gmap string (option string)) (n : string),
    foldl (fun snapshot k => <[k := files !! k]> snapshot) acc names !! n
    = if decide (n ∈ names) then Some (files !! n) else acc !! n.
Proof.
  induction names as [|k names IH]; intros acc n; simpl.
  - destruct (decide (n ∈ [])) as [Hin|_]; [inversion Hin | reflexivity].
  - rewrite IH. destruct (decide (n ∈ names)) as [Hin|Hout].
    + rewrite decide_True by (now right). reflexivity.
    + destruct (decide (n = k)) as [->|Hne].
      * rewrite decide_True by left. apply lookup_insert_eq.
      * rewrite decide_False by (intros Hc; inversion Hc; subst; tauto).
        now apply lookup_insert_ne.
Qed.

Lemma readAll_watched (files : gmap string string) (names : list string) (n : string) :
  n ∈ names -> readAll files names !! n = Some (files !! n).
Proof. intros Hin. unfold readAll. rewrite readAll_from. now rewrite decide_True. Qed.

Lemma readAll_other (files : gmap string string) (names : list string) (n : string) :
  n ∉ names -> readAll files names !! n = None.
Proof.
  intros Hout. unfold readAll. rewrite readAll_from. rewrite decide_False by assumption.
  apply lookup_empty.
Qed.

Lemma hasLockFileContent_readAll (files : gmap string string) (names : list string) :
  hasLockFileContent (readAll files names) = true
  <-> exists n, n ∈ names /\ Js.truthy (files !! n) = true.
Proof.
  unfold hasLockFileContent. rewrite existsb_exists. split.
  - intros (v & Hin & Hv). apply in_map_iff in Hin as ([k v'] & <- & Hin).
    apply list_elem_of_In, elem_of_map_to_list in Hin. simpl in *.
    destruct (decide (k ∈ names)) as [Hk|Hk].
    + rewrite readAll_watched in Hin by assumption. injection Hin as <-. eauto.
    + rewrite readAll_other in Hin by assumption. discriminate.
  - intros (n & Hn & Hv). exists (files !! n). split; [|assumption].
    apply in_map_iff. exists (n, files !! n). split; [reflexivity|].
    apply list_elem_of_In, elem_of_map_to_list. now apply readAll_watched.
Qed.

Lemma hasLockFileContent_none (files : gmap string string) (names : list string) :
  (forall n, n ∈ names -> Js.truthy (files !! n) = false) ->
  hasLockFileContent (readAll files names) = false.
Proof.
  intros Hnone. apply not_true_is_false. intros Hsome.
  apply hasLockFileContent_readAll in Hsome as (n & Hn & Hv).
  rewrite (Hnone n Hn) in Hv. discriminate.
Qed.

(** *** The diff loop *)

Lemma diff_loop_readAll (before after : gmap string string) (names : list string) :
  forall (todo : list string) (acc : list UpdateArtifactsResult),
    (forall n, n ∈ todo -> n ∈ names) ->
    foldl (diffStep (readAll before names) (readAll after names)) acc todo
    = acc ++ additions before after todo.
Proof.
  induction todo as [|n todo IH]; intros acc Hsub; simpl.
  - unfold additions. simpl. now rewrite app_nil_r.
  - assert (Hn : n ∈ names) by (apply Hsub; left).
    rewrite IH by (intros k Hk; apply Hsub; now right).
    unfold diffStep, sameContent, contentOf, additions, changedTo. simpl.
    rewrite !readAll_watched by assumption. simpl.
    destruct (decide (before !! n = after !! n)) as [Heq|Hne].
    + rewrite bool_decide_eq_true_2 by congruence.
      rewrite bool_decide_eq_true_2 by assumption. reflexivity.
    + rewrite bool_decide_eq_false_2 by congruence.
      rewrite bool_decide_eq_false_2 by assumption. simpl.
      destruct (Js.truthy (after !! n)); [|reflexivity].
      simpl. now rewrite <- app_assoc.
Qed.

Lemma diff_readAll (before after : gmap string string) (names : list string) :
  foldl (diffStep (readAll before names) (readAll after names)) [] names
  = additions before after names.
Proof. now apply diff_loop_readAll. Qed.

(** *** The run, gate by gate *)

Section Run.
Variable env : Env.

Local Abbreviation watched := (watchedLockFiles env).
Local Abbreviation leaves req w := (packageFiles (dependents env req w)).

Lemma updateArtifacts_not_applicable (req : UpdateArtifact) (w : World) :
  appliesTo env req = false -> updateArtifacts env req w = (Returned None, w).
Proof.
  unfold appliesTo, updateArtifacts. intros Happ.
  apply orb_false_elim in Happ as [Happ Hp]. apply orb_false_elim in Happ as [Hc Hg].
  now rewrite Hc, Hg, Hp.
Qed.

Lemma updateArtifacts_applicable (req : UpdateArtifact) (w : World) :
  appliesTo env req = true ->
  updateArtifacts env req w
  = if negb (hasLockFileContent (readAll (committed w) (watched req w)))
    then (Returned None, w)
    else tryCatch
           (if Nat.eqb (length (updatedDeps req)) 0
               && negb (bool_decide (isLockFileMaintenance (config req) = Some true))
            then ret None
            else
              await _ := writeManifest env req in
              await _ := restore env req (leaves req w) in
              await newLockFileContentMap := getLocalFiles (watched req w) in
              let retArray :=
                foldl (diffStep (readAll (committed w) (watched req w))
                                newLockFileContentMap)
                      [] (watched req w) in
              ret (if Nat.ltb 0 (length retArray) then Some retArray else None))
           (classify env (watched req w)) w.
Proof.
  unfold appliesTo, updateArtifacts. intros Happ.
  replace (negb (isCentralManagement env (packageFileName req))
           && negb (isGlobalJson env (packageFileName req))
           && negb (isProjectFile (packageFileName req))) with false
    by (destruct (isCentralManagement env (packageFileName req)),
                 (isGlobalJson env (packageFileName req)),
                 (isProjectFile (packageFileName req)); simpl in *; congruence).
  unfold bind at 1, reading at 1. unfold bind at 1, getFiles, reading.
  fold (dependents env req w). fold (watchedLockFiles env req w).
  destruct (hasLockFileContent (readAll (committed w) (watched req w))); reflexivity.
Qed.

Lemma updateArtifacts_regenerating (req : UpdateArtifact) (w : World) :
  appliesTo env req = true ->
  (exists n, n ∈ watched req w /\ Js.truthy (committed w !! n) = true) ->
  regenerates req = true ->
  updateArtifacts env req w
  = tryCatch
      (await _ := writeManifest env req in
       await _ := restore env req (leaves req w) in
       await newLockFileContentMap := getLocalFiles (watched req w) in
       let retArray :=
         foldl (diffStep (readAll (committed w) (watched req w))
                         newLockFileContentMap)
               [] (watched req w) in
       ret (if Nat.ltb 0 (length retArray) then Some retArray else None))
      (classify env (watched req w)) w.
Proof.
  intros Happ Hlock Hreg. rewrite updateArtifacts_applicable by assumption.
  apply hasLockFileContent_readAll in Hlock. rewrite Hlock. simpl.
  unfold regenerates in Hreg.
  replace (Nat.eqb (length (updatedDeps req)) 0
           && negb (bool_decide (isLockFileMaintenance (config req) = Some true)))
    with false
    by (destruct (Nat.eqb (length (updatedDeps req)) 0),
                 (bool_decide (isLockFileMaintenance (config req) = Some true));
        simpl in *; congruence).
  reflexivity.
Qed.

(** A failure of the manifest write or of the restore reaches the handler. *)
Lemma updateArtifacts_caught (req : UpdateArtifact) (w w1 : World) (e : Err) :
  appliesTo env req = true ->
  (exists n, n ∈ watched req w /\ Js.truthy (committed w !! n) = true) ->
  regenerates req = true ->
  writeManifest env req w = (Thrown e, w1)
  \/ (exists w0, writeManifest env req w = (Returned (), w0)
                 /\ restore env req (leaves req w) w0 = (Thrown e, w1)) ->
  updateArtifacts env req w = classify env (watched req w) e w1.
Proof.
  intros Happ Hlock Hreg Hfail.
  rewrite updateArtifacts_regenerating by assumption.
  unfold tryCatch, bind.
  destruct Hfail as [Hw | (w0 & Hw & Hr)]; rewrite Hw; [reflexivity|].
  now rewrite Hr.
Qed.

(** A run whose write and restore both return ends with the changeset. *)
Lemma updateArtifacts_returned (req : UpdateArtifact) (w w0 w1 : World) :
  appliesTo env req = true ->
  (exists n, n ∈ watched req w /\ Js.truthy (committed w !! n) = true) ->
  regenerates req = true ->
  writeManifest env req w = (Returned (), w0) ->
  restore env req (leaves req w) w0 = (Returned (), w1) ->
  updateArtifacts env req w
  = (Returned (match additions (committed w) (localFiles w1) (watched req w) with
               | [] => None
               | ret => Some ret
               end), w1).
Proof.
  intros Happ Hlock Hreg Hw Hr.
  rewrite updateArtifacts_regenerating by assumption.
  unfold tryCatch, bind. rewrite Hw, Hr. unfold getLocalFiles, reading, ret.
  rewrite diff_readAll.
  destruct (additions (committed w) (localFiles w1) (watched req w)); reflexivity.
Qed.

(** C7.  When no watched lock file has content on the base branch (none
    exists, or none holds any text), the result is [null] and the run leaves
    the world as it found it: the manifest is not written, the toolchain is
    not invoked, the trace of outside calls is unchanged. *)
Theorem updateArtifacts_without_lock_files (req : UpdateArtifact) (w : World) :
  (forall n, n ∈ watched req w -> Js.truthy (committed w !! n) = false) ->
  updateArtifacts env req w = (Returned None, w).
Proof.
  intros Hnone. destruct (appliesTo env req) eqn:Happ.
  - rewrite updateArtifacts_applicable by assumption.
    now rewrite hasLockFileContent_none.
  - now apply updateArtifacts_not_applicable.
Qed.

(** C1.  On a request that reaches the [try] block and regenerates (the
    manifest is of a handled kind, some watched lock file has content,
    something is to be updated), when the manifest write or the restore
    throws [e]: a failure whose message is [TEMPORARY_ERROR] is thrown again
    as it is, and any other failure becomes the one-element result with the
    watched lock file names joined by a comma and a space, and the captured
    [stdout] of the failure, or its message when there is none. *)
Theorem updateArtifacts_failure (req : UpdateArtifact) (w w1 : World) (e : Err) :
  appliesTo env req = true ->
  (exists n, n ∈ watched req w /\ Js.truthy (committed w !! n) = true) ->
  regenerates req = true ->
  writeManifest env req w = (Thrown e, w1)
  \/ (exists w0, writeManifest env req w = (Returned (), w0)
                 /\ restore env req (leaves req w) w0 = (Thrown e, w1)) ->
  (message e = TEMPORARY_ERROR env ->
   updateArtifacts env req w = (Thrown e, w1))
  /\ (message e <> TEMPORARY_ERROR env ->
      updateArtifacts env req w
      = (Returned (Some [ArtifactError
                           (Js.join ", " (watched req w))
                           (match stdout e with
                            | Some captured => captured
                            | None => message e
                            end)]), w1)).
Proof.
  intros Happ Hlock Hreg Hfail.
  rewrite (updateArtifacts_caught req w w1 e) by assumption.
  unfold classify. split; intros Hmsg.
  - apply String.eqb_eq in Hmsg. now rewrite Hmsg.
  - apply String.eqb_neq in Hmsg. rewrite Hmsg. unfold ret.
    destruct (stdout e); reflexivity.
Qed.

End Run.

(** *** The changeset *)

Lemma elem_of_additions (before after : gmap string string) (names : list string)
    (n c : string) :
  Addition n c ∈ additions before after names
  <-> n ∈ names /\ before !! n <> Some c /\ after !! n = Some c /\ c <> EmptyString.
Proof.
  unfold additions. rewrite list_elem_of_In, in_map_iff. split.
  - intros (k & Heq & Hin). injection Heq as -> Hc.
    apply List.filter_In in Hin as [Hin Hch]. apply list_elem_of_In in Hin.
    unfold changedTo in Hch. apply andb_prop in Hch as [Hdiff Htruthy].
    apply negb_true_iff, bool_decide_eq_false in Hdiff.
    destruct (after !! n) as [[|a s']|] eqn:Hafter; try discriminate.
    simpl in Hc. subst c. repeat split; try assumption; congruence.
  - intros (Hin & Hdiff & Hafter & Hc). exists n. rewrite Hafter. split; [reflexivity|].
    apply List.filter_In. split; [now apply list_elem_of_In|].
    unfold changedTo. rewrite Hafter. apply andb_true_intro. split.
    + apply negb_true_iff, bool_decide_eq_false. congruence.
    + destruct c; [congruence | reflexivity].
Qed.

Lemma additions_are_additions (before after : gmap string string)
    (names : list string) (x : UpdateArtifactsResult) :
  x ∈ additions before after names ->
  exists n c, x = Addition n c /\ after !! n = Some c.
Proof.
  unfold additions. rewrite list_elem_of_In, in_map_iff.
  intros (k & <- & Hin). apply List.filter_In in Hin as [_ Hch].
  unfold changedTo in Hch. apply andb_prop in Hch as [_ Htruthy].
  destruct (after !! k) as [c|] eqn:Hafter; [|discriminate].
  exists k, c. split; [reflexivity | assumption].
Qed.

Lemma additions_unchanged (before after : gmap string string) (names : list string) :
  (forall n, n ∈ names -> before !! n = after !! n \/ Js.truthy (after !! n) = false) ->
  additions before after names = [].
Proof.
  intros Hsame. unfold additions.
  replace (List.filter (changedTo before after) names) with (@nil string); [reflexivity|].
  symmetry. induction names as [|n names IH]; [reflexivity|]. simpl.
  assert (Hn : changedTo before after n = false).
  { unfold changedTo. destruct (Hsame n) as [Heq|Hempty]; [left| |].
    - now rewrite bool_decide_eq_true_2.
    - rewrite Hempty. apply andb_false_r. }
  rewrite Hn. apply IH. intros k Hk. apply Hsame. now right.
Qed.

Section Changes.
Variable env : Env.

Local Abbreviation watched := (watchedLockFiles env).
Local Abbreviation leaves req w := (packageFiles (dependents env req w)).

(** C4, as the code has it.  After a run that regenerates and whose write
    and restore both return, the result is the changeset of the watched lock
    files between the base branch and the working copy: a file whose content
    is the same is left out; a file whose content differs and is a non-empty
    text gives an Addition with that full text, one for each time its name
    is watched; and when nothing is left the result is [null], never an
    empty list. *)
Theorem updateArtifacts_changeset (req : UpdateArtifact) (w w0 w1 : World) :
  appliesTo env req = true ->
  (exists n, n ∈ watched req w /\ Js.truthy (committed w !! n) = true) ->
  regenerates req = true ->
  writeManifest env req w = (Returned (), w0) ->
  restore env req (leaves req w) w0 = (Returned (), w1) ->
  exists result,
    updateArtifacts env req w = (Returned result, w1)
    /\ result <> Some []
    /\ (forall ret, result = Some ret ->
        ret = map (fun n => Addition n (default EmptyString (localFiles w1 !! n)))
                  (List.filter (changedTo (committed w) (localFiles w1))
                               (watched req w)))
    /\ (forall n ret c, result = Some ret ->
        committed w !! n = localFiles w1 !! n -> Addition n c ∉ ret)
    /\ (forall n c, n ∈ watched req w ->
        localFiles w1 !! n = Some c -> c <> EmptyString ->
        committed w !! n <> Some c ->
        exists ret, result = Some ret /\ Addition n c ∈ ret)
    /\ ((forall n, n ∈ watched req w -> committed w !! n = localFiles w1 !! n) ->
        result = None).
Proof.
  intros Happ Hlock Hreg Hw Hr.
  rewrite (updateArtifacts_returned env req w w0 w1) by assumption.
  set (ret := additions (committed w) (localFiles w1) (watched req w)).
  assert (Hshape : forall r,
             match ret with [] => None | x :: l => Some (x :: l) end = Some r
             -> r = ret).
  { intros r. destruct ret; [discriminate | congruence]. }
  eexists. split; [reflexivity|]. repeat apply conj.
  - destruct ret; discriminate.
  - intros r Hres. now apply Hshape in Hres.
  - intros n r c Hres Hsame Hin. apply Hshape in Hres. subst r.
    apply elem_of_additions in Hin as (_ & Hdiff & Hafter & _). congruence.
  - intros n c Hn Hafter Hc Hdiff.
    assert (Hin : Addition n c ∈ ret) by (apply elem_of_additions; tauto).
    exists ret. split; [|assumption].
    destruct ret; [inversion Hin | reflexivity].
  - intros Hsame. subst ret. rewrite additions_unchanged; [reflexivity|].
    intros n Hn. left. now apply Hsame.
Qed.

(** C3, as the code has it.  After a run that regenerates and whose write
    and restore both return, a watched lock file that has content on the
    base branch and is absent from the working copy is left out of the
    result: the result holds Additions only, none of them for that file, and
    it is [null] when no other watched file changed. *)
Theorem updateArtifacts_lock_file_gone (req : UpdateArtifact) (w w0 w1 : World)
    (n : string) :
  appliesTo env req = true ->
  regenerates req = true ->
  n ∈ watched req w ->
  Js.truthy (committed w !! n) = true ->
  writeManifest env req w = (Returned (), w0) ->
  restore env req (leaves req w) w0 = (Returned (), w1) ->
  localFiles w1 !! n = None ->
  exists result,
    updateArtifacts env req w = (Returned result, w1)
    /\ (forall ret x, result = Some ret -> x ∈ ret ->
        exists p c, x = Addition p c /\ p <> n)
    /\ ((forall m, m ∈ watched req w -> m <> n ->
         committed w !! m = localFiles w1 !! m) -> result = None).
Proof.
  intros Happ Hreg Hn Hbefore Hw Hr Hgone.
  rewrite (updateArtifacts_returned env req w w0 w1) by eauto.
  set (ret := additions (committed w) (localFiles w1) (watched req w)).
  eexists. split; [reflexivity|]. split.
  - intros r x Hres Hx.
    assert (r = ret) by (destruct ret; [discriminate | congruence]). subst r.
    apply additions_are_additions in Hx as (p & c & -> & Hafter).
    exists p, c. split; [reflexivity|]. intros ->. congruence.
  - intros Hsame. subst ret. rewrite additions_unchanged; [reflexivity|].
    intros m Hm. destruct (decide (m = n)) as [->|Hne].
    + right. now rewrite Hgone.
    + left. now apply Hsame.
Qed.

End Changes.

(** *** What the run reads from the graph *)

Section Graph.
Variable env : Env.

Local Abbreviation watched := (watchedLockFiles env).
Local Abbreviation leaves req w := (packageFiles (dependents env req w)).

Lemma writeManifest_trace (req : UpdateArtifact) (w : World) :
  trace (writeManifest env req w).2
  = trace w ++ [WriteLocalFile (packageFileName req) (newPackageFileContent req)].
Proof.
  unfold writeManifest, writeLocalFile.
  destruct (writeFailure env w _ _); reflexivity.
Qed.

Lemma restore_trace (req : UpdateArtifact) (files : list string) (w : World) :
  exists evs,
    trace (restore env req files w).2 = trace w ++ evs
    /\ forall cmds opts, Exec cmds opts ∈ evs ->
         cmds = restoreCommands env (config req) (nugetConfigFile env) files.
Proof.
  unfold restore, runDotnetRestore, createCachedNuGetConfigFile, nugetConfigFile.
  unfold bind, reading, ret, ensureDir, outputCacheFile, exec.
  destruct (constraints_dotnet (config req)).
  all: destruct (ensureDirFailure env w _);
    [ eexists [_]; split; [reflexivity|]; intros cmds opts Hin;
      apply list_elem_of_singleton in Hin; discriminate | ].
  all: destruct (outputCacheFailure env _ _ _);
    [ eexists [_; _]; simpl; rewrite <- app_assoc; split; [reflexivity|];
      intros cmds opts Hin;
      repeat (apply elem_of_cons in Hin as [Hin|Hin]; try discriminate);
      inversion Hin | ].
  all: destruct (toolchain env _ _ _) as [after [e|]];
    (eexists [_; _; _]; simpl; rewrite <- !app_assoc; split; [reflexivity|];
     intros cmds opts Hin;
     repeat (apply elem_of_cons in Hin as [Hin|Hin]; try discriminate);
     [now injection Hin as -> _ | inversion Hin]).
Qed.

Lemma exec_events (before after : list Event) (evs : list Event) (P : list string -> Prop) :
  after = before ++ evs ->
  (forall cmds opts, Exec cmds opts ∈ evs -> P cmds) ->
  forall cmds opts, Exec cmds opts ∈ after -> Exec cmds opts ∈ before \/ P cmds.
Proof.
  intros -> Hevs cmds opts Hin. apply elem_of_app in Hin as [Hin|Hin]; eauto.
Qed.

Lemma classify_outcome (names : list string) (e : Err) (w : World) :
  (classify env names e w).2 = w
  /\ ((classify env names e w).1 = Thrown e
      \/ (classify env names e w).1
         = Returned (Some [ArtifactError (Js.join ", " names)
                                         (default (message e) (stdout e))])).
Proof.
  unfold classify. destruct (String.eqb (message e) (TEMPORARY_ERROR env));
    split; auto.
Qed.

(** What every run shows of the graph: the commands come from the leaves,
    the names reported come from all the files. *)
Lemma updateArtifacts_graph_bounds (req : UpdateArtifact)
    (w : World) :
  let deps :=
    getDependentPackageFiles env w (packageFileName req)
      (isCentralManagement env (packageFileName req))
      (isGlobalJson env (packageFileName req)) in
  let all :=
    map (fun d => getSiblingFileName env (name d) "packages.lock.json") deps in
  let run := updateArtifacts env req w in
  (forall cmds opts, Exec cmds opts ∈ trace run.2 ->
     Exec cmds opts ∈ trace w
     \/ cmds = restoreCommands env (config req) (nugetConfigFile env)
                 (map name (List.filter isLeaf deps)))
  /\ (run.1 = Returned None
      \/ (exists e, run.1 = Thrown e)
      \/ (exists diagnostics,
            run.1 = Returned (Some [ArtifactError (Js.join ", " all) diagnostics]))
      \/ run.1 = Returned (Some (additions (committed w) (localFiles run.2) all))).
Proof.
  intros deps all run. subst run.
  change deps with (dependents env req w) in *.
  change all with (watched req w) in *.
  change (map name (List.filter isLeaf (dependents env req w)))
    with (leaves req w).
  destruct (appliesTo env req) eqn:Happ;
    [|rewrite updateArtifacts_not_applicable by assumption; simpl; auto].
  destruct (hasLockFileContent (readAll (committed w) (watched req w))) eqn:Hlock;
    [|rewrite updateArtifacts_applicable, Hlock by assumption; simpl; auto].
  destruct (regenerates req) eqn:Hreg.
  2: { rewrite updateArtifacts_applicable, Hlock by assumption. simpl.
       unfold regenerates in Hreg. apply orb_false_elim in Hreg as [Hlen Hmaint].
       apply negb_false_iff in Hlen. rewrite Hlen, Hmaint. simpl. auto. }
  apply hasLockFileContent_readAll in Hlock.
  pose proof (writeManifest_trace req w) as Hwt.
  destruct (writeManifest env req w) as [[[]|e] w0] eqn:Hw; simpl in Hwt.
  - destruct (restore_trace req (leaves req w) w0) as (evs & Hrt & Hevs).
    rewrite Hwt, <- app_assoc in Hrt.
    destruct (restore env req (leaves req w) w0) as [[[]|e] w1] eqn:Hr; simpl in Hrt.
    + rewrite (updateArtifacts_returned env req w w0 w1) by assumption. simpl. split.
      * eapply exec_events; [exact Hrt|]. intros cmds opts Hin.
        apply elem_of_cons in Hin as [Hin|Hin]; [discriminate | eauto].
      * destruct (additions _ _ _); auto.
    + rewrite (updateArtifacts_caught env req w w1 e) by eauto.
      destruct (classify_outcome (watched req w) e w1) as [-> Hout]. split.
      * eapply exec_events; [exact Hrt|]. intros cmds opts Hin.
        apply elem_of_cons in Hin as [Hin|Hin]; [discriminate | eauto].
      * destruct Hout as [-> | ->]; eauto.
  - rewrite (updateArtifacts_caught env req w w0 e) by eauto.
    destruct (classify_outcome (watched req w) e w0) as [-> Hout]. split.
    + eapply exec_events; [exact Hwt|]. intros cmds opts Hin.
      apply list_elem_of_singleton in Hin. discriminate.
    + destruct Hout as [-> | ->]; eauto.
Qed.

(** C2, as the code has it.  Of the files the graph lookup returns, only
    the leaves are restored: every command list the run hands to the
    toolchain is built from the leaf names, and the restore that decides the
    outcome is the one of the leaves.  The lock file names that are watched
    are the siblings of all the files returned, leaves or not: the run is a
    no-op exactly when none of them has content on the base branch, so the
    content of a lock file next to a file that is no leaf is enough to let
    the run regenerate; they are the names joined in an ArtifactError; and
    they are the names the changeset is taken over. *)
Theorem updateArtifacts_restores_leaves_watches_all (req : UpdateArtifact)
    (w : World) :
  let deps :=
    getDependentPackageFiles env w (packageFileName req)
      (isCentralManagement env (packageFileName req))
      (isGlobalJson env (packageFileName req)) in
  let all :=
    map (fun d => getSiblingFileName env (name d) "packages.lock.json") deps in
  let leafNames := map name (List.filter isLeaf deps) in
  let run := updateArtifacts env req w in
  (forall cmds opts, Exec cmds opts ∈ trace run.2 ->
     Exec cmds opts ∈ trace w
     \/ cmds = restoreCommands env (config req) (nugetConfigFile env) leafNames)
  /\ (run.1 = Returned None
      \/ (exists e, run.1 = Thrown e)
      \/ (exists diagnostics,
            run.1 = Returned (Some [ArtifactError (Js.join ", " all) diagnostics]))
      \/ run.1 = Returned (Some (additions (committed w) (localFiles run.2) all)))
  /\ ((forall d, d ∈ deps ->
         Js.truthy (committed w !! getSiblingFileName env (name d) "packages.lock.json")
         = false) ->
      run = (Returned None, w))
  /\ (appliesTo env req = true ->
      regenerates req = true ->
      (exists d, d ∈ deps
                 /\ Js.truthy (committed w
                               !! getSiblingFileName env (name d) "packages.lock.json")
                    = true) ->
      (forall e wf,
         writeManifest env req w = (Thrown e, wf)
         \/ (exists w0, writeManifest env req w = (Returned (), w0)
                        /\ restore env req leafNames w0 = (Thrown e, wf)) ->
         message e <> TEMPORARY_ERROR env ->
         run = (Returned (Some [ArtifactError (Js.join ", " all)
                                              (default (message e) (stdout e))]), wf))
      /\ (forall w0 w1,
            writeManifest env req w = (Returned (), w0) ->
            restore env req leafNames w0 = (Returned (), w1) ->
            run = (Returned (match additions (committed w) (localFiles w1) all with
                             | [] => None
                             | ret => Some ret
                             end), w1))).
Proof.
  intros deps all leafNames run.
  destruct (updateArtifacts_graph_bounds req w) as [Hcmds Hshape].
  split; [exact Hcmds|]. split; [exact Hshape|]. subst run.
  change deps with (dependents env req w) in *.
  change all with (watched req w) in *.
  change leafNames with (leaves req w) in *.
  assert (Hwatched : forall n, n ∈ watched req w
                     <-> exists d, d ∈ dependents env req w
                                   /\ n = getSiblingFileName env (name d) "packages.lock.json").
  { intros n. unfold watchedLockFiles, lockFileNames.
    rewrite list_elem_of_In, in_map_iff. split.
    - intros (d & <- & Hd). exists d. now rewrite list_elem_of_In.
    - intros (d & Hd & ->). exists d. now rewrite <- list_elem_of_In. }
  split.
  - intros Hnone.
    assert (Hno : forall n, n ∈ watched req w -> Js.truthy (committed w !! n) = false).
    { intros n Hn. apply Hwatched in Hn as (d & Hd & ->). now apply Hnone. }
    destruct (appliesTo env req) eqn:Happ.
    + rewrite updateArtifacts_applicable by assumption.
      now rewrite hasLockFileContent_none.
    + now apply updateArtifacts_not_applicable.
  - intros Happ Hreg (d & Hd & Htruthy).
    assert (Hlock : exists n, n ∈ watched req w /\ Js.truthy (committed w !! n) = true).
    { eexists. split; [|exact Htruthy]. apply Hwatched. eauto. }
    split.
    + intros e wf Hfail Hmsg.
      rewrite (updateArtifacts_caught env req w wf e) by assumption.
      unfold classify. apply String.eqb_neq in Hmsg. now rewrite Hmsg.
    + intros w0 w1 Hw Hr.
      now apply (updateArtifacts_returned env req w w0 w1).
Qed.

End Graph.

(** *** Runs of the model *)

Section Runs.
Import Demo.

Local Abbreviation project := (request "app/app.csproj").
Local Abbreviation locked := (world {[ lockFile := "old" ]}).

Lemma updateArtifacts_without_lock_files_witness :
  updateArtifacts envRewriting project (world {[ "app/app.csproj" := "<Project/>" ]})
  = (Returned None, world {[ "app/app.csproj" := "<Project/>" ]}).
Proof.
  apply updateArtifacts_without_lock_files.
  intros n Hn. apply list_elem_of_In in Hn. vm_compute in Hn.
  destruct Hn as [<-|[]]. vm_compute. reflexivity.
Defined.

Lemma updateArtifacts_failure_witness :
  (updateArtifacts envFailing project locked).1
  = Returned (Some [ArtifactError lockFile "error NU1101: Unable to find package"]).
Proof.
  pose (w0 := (writeManifest envFailing project locked).2).
  pose (w1 := (restore envFailing project
                 (packageFiles (dependents envFailing project locked)) w0).2).
  destruct (updateArtifacts_failure envFailing project locked w1 restoreFailed)
    as [_ Hother].
  - vm_compute. reflexivity.
  - exists lockFile. split; [apply list_elem_of_In|]; vm_compute; auto.
  - vm_compute. reflexivity.
  - right. exists w0. split; vm_compute; reflexivity.
  - rewrite Hother; [vm_compute; reflexivity | vm_compute; discriminate].
Defined.

Lemma updateArtifacts_changeset_witness :
  exists ret,
    (updateArtifacts envRewriting project locked).1 = Returned (Some ret)
    /\ Addition lockFile "new" ∈ ret.
Proof.
  pose (w0 := (writeManifest envRewriting project locked).2).
  pose (w1 := (restore envRewriting project
                 (packageFiles (dependents envRewriting project locked)) w0).2).
  destruct (updateArtifacts_changeset envRewriting project locked w0 w1)
    as (result & Hrun & _ & _ & _ & Hchanged & _).
  - vm_compute. reflexivity.
  - exists lockFile. split; [apply list_elem_of_In|]; vm_compute; auto.
  - vm_compute. reflexivity.
  - vm_compute. reflexivity.
  - vm_compute. reflexivity.
  - destruct (Hchanged lockFile "new") as (ret & -> & Hin).
    + apply list_elem_of_In. vm_compute. auto.
    + vm_compute. reflexivity.
    + discriminate.
    + vm_compute. discriminate.
    + exists ret. rewrite Hrun. split; [reflexivity | assumption].
Defined.

Lemma updateArtifacts_lock_file_gone_witness :
  (updateArtifacts envDeleting project locked).1 = Returned None.
Proof.
  pose (w0 := (writeManifest envDeleting project locked).2).
  pose (w1 := (restore envDeleting project
                 (packageFiles (dependents envDeleting project locked)) w0).2).
  destruct (updateArtifacts_lock_file_gone envDeleting project locked w0 w1 lockFile)
    as (result & Hrun & _ & Hnull).
  - vm_compute. reflexivity.
  - vm_compute. reflexivity.
  - apply list_elem_of_In. vm_compute. auto.
  - vm_compute. reflexivity.
  - vm_compute. reflexivity.
  - vm_compute. reflexivity.
  - vm_compute. reflexivity.
  - rewrite Hrun. simpl. f_equal. apply Hnull.
    intros m Hm Hne. apply list_elem_of_In in Hm. vm_compute in Hm.
    destruct Hm as [<-|[]]. exfalso. apply Hne. reflexivity.
Defined.

(** A lock file on the base branch that the restore removes: the result is
    [null], the same as for an unchanged file, and no error is reported. *)
Lemma updateArtifacts_deleted_lock_file :
  committed locked !! lockFile = Some "old"
  /\ localFiles (updateArtifacts envDeleting project locked).2 !! lockFile = None
  /\ (updateArtifacts envDeleting project locked).1 = Returned None.
Proof. vm_compute. auto. Qed.

(** A lock file that the restore leaves present but empty: its content
    differs from the one on the base branch, and no Addition is made for
    it. *)
Lemma updateArtifacts_emptied_lock_file :
  committed locked !! lockFile = Some "old"
  /\ localFiles (updateArtifacts envEmptying project locked).2 !! lockFile
     = Some EmptyString
  /\ (updateArtifacts envEmptying project locked).1 = Returned None.
Proof. vm_compute. auto. Qed.

(** The lock file next to a central version file, which is not a leaf, is
    watched: its change is reported although the siblings of the leaves do
    not include it. *)
Lemma updateArtifacts_watches_non_leaf :
  packageFiles centralTree = ["app/app.csproj"]
  /\ map (fun n => getSiblingFileName envCentral n "packages.lock.json")
         (packageFiles centralTree) = [lockFile]
  /\ (updateArtifacts envCentral (request "Directory.Packages.props")
        (world {[ "packages.lock.json" := "old" ]})).1
     = Returned (Some [Addition "packages.lock.json" "new"]).
Proof. vm_compute. auto. Qed.

Lemma updateArtifacts_restores_leaves_watches_all_witness :
  updateArtifacts envCentral (request "Directory.Packages.props")
    (world {[ "packages.lock.json" := "old" ]})
  = (Returned (Some [Addition "packages.lock.json" "new"]),
     (restore envCentral (request "Directory.Packages.props") ["app/app.csproj"]
        (writeManifest envCentral (request "Directory.Packages.props")
           (world {[ "packages.lock.json" := "old" ]})).2).2).
Proof.
  destruct (updateArtifacts_restores_leaves_watches_all envCentral
              (request "Directory.Packages.props")
              (world {[ "packages.lock.json" := "old" ]}))
    as (_ & _ & _ & Hruns).
  destruct Hruns as [_ Hreturned].
  - vm_compute. reflexivity.
  - vm_compute. reflexivity.
  - exists {| name := "Directory.Packages.props"; isLeaf := false |}.
    split; [apply list_elem_of_In|]; vm_compute; auto.
  - rewrite (Hreturned
               (writeManifest envCentral (request "Directory.Packages.props")
                  (world {[ "packages.lock.json" := "old" ]})).2
               (restore envCentral (request "Directory.Packages.props") ["app/app.csproj"]
                  (writeManifest envCentral (request "Directory.Packages.props")
                     (world {[ "packages.lock.json" := "old" ]})).2).2).
    + vm_compute. reflexivity.
    + vm_compute. reflexivity.
    + vm_compute. reflexivity.
Defined.

End Runs.

End NugetFacts.

(** * Further properties *)

(** ** More on strings *)

Module JsMore.

Lemma append_assoc (a b c : string) : (a +:+ b) +:+ c = a +:+ (b +:+ c).
Proof.
  induction a as [|d a IH]; [reflexivity|].
  rewrite !JsFacts.append_cons. now rewrite IH.
Qed.

Lemma append_nil_r (a : string) : a +:+ EmptyString = a.
Proof.
  induction a as [|d a IH]; [reflexivity|].
  rewrite JsFacts.append_cons. now rewrite IH.
Qed.

Lemma startsWith_refl_app (x y : string) : Js.startsWith x (x +:+ y) = true.
Proof.
  induction x as [|c x IH]; [reflexivity|].
  rewrite JsFacts.append_cons. cbn [Js.startsWith].
  now rewrite Ascii.eqb_refl.
Qed.

Lemma startsWith_split (x s : string) :
  Js.startsWith x s = true -> exists y, s = x +:+ y.
Proof.
  revert s. induction x as [|c x IH]; intros s Hs.
  - now exists s.
  - destruct s as [|d s]; [discriminate Hs|]. cbn [Js.startsWith] in Hs.
    destruct (Ascii.eqb c d) eqn:Hc; [|discriminate Hs].
    apply Ascii.eqb_eq in Hc. subst d.
    destruct (IH s Hs) as [y ->]. now exists y.
Qed.

Lemma includes_here (needle s : string) :
  Js.startsWith needle s = true -> Js.includes needle s = true.
Proof.
  intros Hs. destruct s as [|c s]; [exact Hs|].
  cbn [Js.includes]. now rewrite Hs.
Qed.

Lemma includes_app_r (needle x y : string) :
  Js.includes needle y = true -> Js.includes needle (x +:+ y) = true.
Proof.
  intros Hy. induction x as [|c x IH]; [exact Hy|].
  rewrite JsFacts.append_cons. cbn [Js.includes]. rewrite IH. apply orb_true_r.
Qed.

Lemma includes_tail (needle : string) (c : ascii) (s : string) :
  Js.includes needle (String c s) = false -> Js.includes needle s = false.
Proof. cbn [Js.includes]. intros H. now apply orb_false_elim in H. Qed.

Lemma endsWith_app (suffix x : string) : Js.endsWith suffix (x +:+ suffix) = true.
Proof.
  induction x as [|c x IH].
  - rewrite JsFacts.append_nil_l. destruct suffix; cbn [Js.endsWith];
      now rewrite String.eqb_refl.
  - rewrite JsFacts.append_cons. cbn [Js.endsWith]. rewrite IH. apply orb_true_r.
Qed.

Lemma endsWith_split (suffix s : string) :
  Js.endsWith suffix s = true -> exists x, s = x +:+ suffix.
Proof.
  induction s as [|c s IH]; cbn [Js.endsWith]; intros H.
  - apply orb_prop in H as [H|H]; [|discriminate H].
    apply String.eqb_eq in H. subst suffix. now exists EmptyString.
  - apply orb_prop in H as [H|H].
    + apply String.eqb_eq in H. subst suffix. now exists EmptyString.
    + destruct (IH H) as [x ->]. now exists (String c x).
Qed.

Lemma toLowerCase_app (a b : string) :
  Js.toLowerCase (a +:+ b) = Js.toLowerCase a +:+ Js.toLowerCase b.
Proof.
  induction a as [|c a IH]; [reflexivity|].
  rewrite JsFacts.append_cons. cbn [Js.toLowerCase].
  now rewrite IH, JsFacts.append_cons.
Qed.

Lemma toLowerCase_split (a b s : string) :
  Js.toLowerCase s = a +:+ b ->
  exists a' b', s = a' +:+ b' /\ Js.toLowerCase a' = a /\ Js.toLowerCase b' = b.
Proof.
  revert s. induction a as [|c a IH]; intros s Hs.
  - exists EmptyString, s. auto.
  - destruct s as [|d s]; [discriminate Hs|].
    rewrite JsFacts.append_cons in Hs. cbn [Js.toLowerCase] in Hs.
    injection Hs as Hd Hs. destruct (IH s Hs) as (a' & b' & -> & Ha & Hb).
    exists (String d a'), b'. rewrite JsFacts.append_cons. cbn [Js.toLowerCase].
    now rewrite Hd, Ha.
Qed.

End JsMore.

(** ** More on the npm registry configuration *)

Module NpmrcMore.
Import Npmrc.

(** *** The caller's text and the repository file *)

(** X1.  A repository [.npmrc] that is found and read is ignored when the
    caller supplies a text and merging is not switched on: the resolved text
    is the caller's, byte for byte, whatever the file holds and whatever
    [exposeAllEnv] is, and the file name is still reported. *)
Theorem resolveNpmrc_caller_overrides
    (findLocalSiblingOrParent : string -> string -> option string)
    (readLocalFile : string -> option string) (exposeAllEnv : bool)
    (packageFile f repoNpmrc t : string) (merge : option bool) :
  findLocalSiblingOrParent packageFile ".npmrc" = Some f ->
  f <> EmptyString ->
  readLocalFile f = Some repoNpmrc ->
  merge <> Some true ->
  resolveNpmrc findLocalSiblingOrParent readLocalFile exposeAllEnv packageFile
    {| npmrc := Some t; npmrcMerge := merge |}
  = {| res_npmrc := Some t; npmrcFileName := Some f |}.
Proof.
  intros Hfind Hf Hread Hmerge. unfold resolveNpmrc. rewrite Hfind.
  destruct f as [|c f]; [congruence|]. simpl. rewrite Hread.
  destruct merge as [[|]|]; [congruence | reflexivity | reflexivity].
Qed.

Lemma resolveNpmrc_caller_overrides_witness :
  resolveNpmrc (fun _ _ => Some ".npmrc") (fun _ => Some ("_auth=${TOKEN}" +:+ nl))
    true "package.json" {| npmrc := Some "registry=https://r/"; npmrcMerge := Some false |}
  = {| res_npmrc := Some "registry=https://r/"; npmrcFileName := Some ".npmrc" |}.
Proof.
  apply (resolveNpmrc_caller_overrides _ _ _ _ ".npmrc" ("_auth=${TOKEN}" +:+ nl));
    [reflexivity | discriminate | reflexivity | discriminate].
Defined.

Lemma callerPrefix_closed (t pre : string) :
  t = pre +:+ nl -> callerPrefix (Some t) = t.
Proof.
  intros ->. pose proof (JsMore.endsWith_app nl pre) as Hends.
  unfold callerPrefix. change (default EmptyString (Some (pre +:+ nl))) with (pre +:+ nl).
  destruct (pre +:+ nl) as [|c s]; [reflexivity|].
  change nl with (String Js.LF EmptyString) in Hends. now rewrite Hends.
Qed.

Lemma callerPrefix_open (t : string) :
  t <> EmptyString -> (forall pre, t <> pre +:+ nl) ->
  callerPrefix (Some t) = t +:+ nl.
Proof.
  intros Hne Hopen. unfold callerPrefix.
  change (default EmptyString (Some t)) with t.
  destruct t as [|c t]; [congruence|].
  destruct (Js.endsWith (String Js.LF EmptyString) (String c t)) eqn:Hends;
    [|reflexivity].
  apply JsMore.endsWith_split in Hends as [pre Hpre]. now elim (Hopen pre).
Qed.

(** X2.  When the caller's text is merged with the repository file, exactly
    one line feed stands between them: a text that ends in a line feed is
    followed by the repository text at once, a non-empty text that does not
    gets one line feed first, and an empty or absent text adds nothing. *)
Theorem resolveNpmrc_joins_with_one_newline
    (findLocalSiblingOrParent : string -> string -> option string)
    (readLocalFile : string -> option string) (exposeAllEnv : bool)
    (packageFile f repoNpmrc : string) :
  findLocalSiblingOrParent packageFile ".npmrc" = Some f ->
  f <> EmptyString ->
  readLocalFile f = Some repoNpmrc ->
  let repo := stripVariables exposeAllEnv (stripPackageLock repoNpmrc) in
  let resolved config :=
    res_npmrc (resolveNpmrc findLocalSiblingOrParent readLocalFile exposeAllEnv
                            packageFile config) in
  (forall t pre, t = pre +:+ nl ->
     resolved {| npmrc := Some t; npmrcMerge := Some true |} = Some (t +:+ repo))
  /\ (forall t, t <> EmptyString -> (forall pre, t <> pre +:+ nl) ->
        resolved {| npmrc := Some t; npmrcMerge := Some true |}
        = Some (t +:+ nl +:+ repo))
  /\ resolved {| npmrc := Some EmptyString; npmrcMerge := Some true |} = Some repo
  /\ (forall merge, resolved {| npmrc := None; npmrcMerge := merge |} = Some repo).
Proof.
  intros Hfind Hf Hread repo resolved.
  assert (Hmerged : forall caller,
            resolved {| npmrc := Some caller; npmrcMerge := Some true |}
            = Some (callerPrefix (Some caller) +:+ repo)).
  { intros caller. subst resolved. unfold resolveNpmrc. cbv beta. rewrite Hfind.
    destruct f as [|c f]; [congruence|]. simpl. now rewrite Hread. }
  repeat apply conj.
  - intros t pre Ht. rewrite Hmerged. now rewrite (callerPrefix_closed t pre).
  - intros t Hne Hopen. rewrite Hmerged, callerPrefix_open by assumption.
    now rewrite JsMore.append_assoc.
  - now rewrite Hmerged.
  - intros merge. subst resolved. unfold resolveNpmrc. cbv beta. rewrite Hfind.
    destruct f as [|c f]; [congruence|]. simpl. now rewrite Hread.
Qed.

Lemma resolveNpmrc_joins_with_one_newline_witness :
  res_npmrc (resolveNpmrc (fun _ _ => Some ".npmrc") (fun _ => Some ("repo-npmrc" +:+ nl))
               false "package.json"
               {| npmrc := Some "config-npmrc"; npmrcMerge := Some true |})
  = Some ("config-npmrc" +:+ nl +:+ "repo-npmrc" +:+ nl).
Proof.
  destruct (resolveNpmrc_joins_with_one_newline (fun _ _ => Some ".npmrc")
              (fun _ => Some ("repo-npmrc" +:+ nl)) false "package.json" ".npmrc"
              ("repo-npmrc" +:+ nl) eq_refl ltac:(discriminate) eq_refl)
    as (_ & Hopen & _).
  apply (Hopen "config-npmrc"); [discriminate|].
  intros pre Hpre. apply (f_equal (Js.endsWith nl)) in Hpre.
  rewrite JsMore.endsWith_app in Hpre. vm_compute in Hpre. discriminate Hpre.
Defined.

End NpmrcMore.

(** ** More on the package-lock stripping *)

Module PackageLock.
Import Npmrc.

Lemma matchLineTail_plain (a rest : string) :
  plain a = true ->
  matchLineTail (a +:+ String Js.LF rest) = Some (S (String.length a)).
Proof.
  unfold plain. induction a as [|c a IH]; intros Hplain.
  - rewrite JsFacts.append_nil_l. reflexivity.
  - rewrite JsFacts.append_cons. cbn [Js.avoids] in Hplain.
    apply andb_prop in Hplain as [Hlf Hcr].
    apply andb_prop in Hlf as [Hlf Hlf']. apply andb_prop in Hcr as [Hcr Hcr'].
    apply negb_true_iff in Hlf, Hcr.
    cbn [matchLineTail String.length]. rewrite Hlf, Hcr.
    rewrite IH by (now rewrite Hlf', Hcr'). reflexivity.
Qed.

(** The end of the text closes a line as well. *)
Lemma matchLineTail_plain_end (a : string) :
  plain a = true -> matchLineTail a = Some (String.length a).
Proof.
  unfold plain. induction a as [|c a IH]; intros Hplain; [reflexivity|].
  cbn [Js.avoids] in Hplain.
  apply andb_prop in Hplain as [Hlf Hcr].
  apply andb_prop in Hlf as [Hlf Hlf']. apply andb_prop in Hcr as [Hcr Hcr'].
  apply negb_true_iff in Hlf, Hcr.
  cbn [matchLineTail String.length]. rewrite Hlf, Hcr.
  rewrite IH by (now rewrite Hlf', Hcr'). reflexivity.
Qed.

Lemma replace_skip_line (a rest : string) (b : bool) :
  replacePackageLock (S (String.length a)) b (a +:+ String Js.LF rest)
  = replacePackageLock O false rest.
Proof.
  revert b. induction a as [|c a IH]; intros b.
  - rewrite JsFacts.append_nil_l. reflexivity.
  - rewrite JsFacts.append_cons. cbn [String.length replacePackageLock]. apply IH.
Qed.

Lemma replace_skip_all (a : string) (b : bool) :
  replacePackageLock (String.length a) b a = EmptyString.
Proof.
  revert b. induction a as [|c a IH]; intros b; [reflexivity|].
  cbn [String.length replacePackageLock]. apply IH.
Qed.

(** Where no line starts with [package-lock] after a line feed, nothing
    past the start of the text is replaced. *)
Lemma replace_nothing (s : string) :
  Js.includes lineStart s = false -> replacePackageLock O false s = s.
Proof.
  induction s as [|c s IH]; intros Hinc; [reflexivity|].
  cbn [replacePackageLock].
  assert (Hno : matchPackageLock false (String c s) = None).
  { unfold matchPackageLock. cbn [andb].
    destruct (Ascii.eqb c Js.LF && Js.startsWith packageLock s) eqn:Hm; [|reflexivity].
    apply andb_prop in Hm as [Hc Hs]. apply Ascii.eqb_eq in Hc. subst c.
    cbn [Js.includes] in Hinc. apply orb_false_elim in Hinc as [Hhere _].
    unfold lineStart in Hhere. cbn [Js.startsWith] in Hhere.
    rewrite Ascii.eqb_refl, Hs in Hhere. discriminate Hhere. }
  rewrite Hno. f_equal. apply IH. now apply JsMore.includes_tail in Hinc.
Qed.

Lemma match_line_start (a rest : string) (b : bool) :
  plain a = true ->
  matchPackageLock b (String Js.LF (packageLock +:+ a +:+ String Js.LF rest))
  = Some (13 + S (String.length a)).
Proof.
  intros Hplain. unfold matchPackageLock.
  replace (b && Js.startsWith packageLock
                  (String Js.LF (packageLock +:+ a +:+ String Js.LF rest)))
    with false by (now destruct b).
  rewrite Ascii.eqb_refl, JsMore.startsWith_refl_app. cbn [andb].
  change (Js.slice 12 (packageLock +:+ a +:+ String Js.LF rest))
    with (a +:+ String Js.LF rest).
  now rewrite matchLineTail_plain.
Qed.

Lemma match_text_start (a rest : string) :
  plain a = true ->
  matchPackageLock true (packageLock +:+ a +:+ String Js.LF rest)
  = Some (12 + S (String.length a)).
Proof.
  intros Hplain. unfold matchPackageLock.
  rewrite JsMore.startsWith_refl_app. cbn [andb].
  change (Js.slice 12 (packageLock +:+ a +:+ String Js.LF rest))
    with (a +:+ String Js.LF rest).
  now rewrite matchLineTail_plain.
Qed.

Lemma replace_line (a rest : string) (b : bool) :
  plain a = true ->
  Js.includes lineStart rest = false ->
  replacePackageLock O b (String Js.LF (packageLock +:+ a +:+ String Js.LF rest))
  = String Js.LF rest.
Proof.
  intros Hplain Hrest. cbn [replacePackageLock].
  rewrite match_line_start by assumption. f_equal.
  change (Nat.pred (13 + S (String.length a)))
    with (12 + S (String.length a))%nat.
  change (packageLock +:+ a +:+ String Js.LF rest)
    with (String "p" (String "a" (String "c" (String "k" (String "a" (String "g"
          (String "e" (String "-" (String "l" (String "o" (String "c" (String "k"
          (a +:+ String Js.LF rest))))))))))))).
  cbn [replacePackageLock Nat.add].
  rewrite replace_skip_line. now apply replace_nothing.
Qed.

(** Before the first line feed that is followed by [package-lock], a text
    that does not mention it is copied. *)
Lemma replace_before (r out : string) :
  (forall b, replacePackageLock O b (String Js.LF r) = out) ->
  forall (pre : string) (b : bool),
    Js.includes packageLock pre = false ->
    replacePackageLock O b (pre +:+ String Js.LF r) = pre +:+ out.
Proof.
  intros Hout. induction pre as [|c pre IH]; intros b Hpre.
  - rewrite !JsFacts.append_nil_l. apply Hout.
  - rewrite !JsFacts.append_cons. cbn [replacePackageLock].
    assert (Hno : matchPackageLock b (String c (pre +:+ String Js.LF r)) = None).
    { cbn [Js.includes] in Hpre. apply orb_false_elim in Hpre as [Hhere Hpre].
      unfold matchPackageLock. rewrite <- JsFacts.append_cons.
      rewrite (JsFacts.startsWith_app_sep Js.LF r packageLock)
        by (reflexivity || discriminate).
      rewrite Hhere, andb_false_r.
      rewrite (JsFacts.startsWith_app_sep Js.LF r packageLock)
        by (reflexivity || discriminate).
      assert (Hnext : Js.startsWith packageLock pre = false).
      { destruct pre as [|d pre]; [reflexivity|].
        cbn [Js.includes] in Hpre. now apply orb_false_elim in Hpre. }
      now rewrite Hnext, andb_false_r. }
    rewrite Hno. f_equal. apply IH. now apply JsMore.includes_tail in Hpre.
Qed.

(** X3.  A [package-lock] line in the middle of the repository text is cut
    out with the line feeds around it, and one line feed is put in its
    place: the text before it, which does not mention package-lock, and the
    text after it, in which no line feed is followed by package-lock, are
    kept byte for byte. *)
Theorem stripPackageLock_removes_line (pre a rest : string) :
  Js.includes packageLock pre = false ->
  plain a = true ->
  Js.includes lineStart rest = false ->
  stripPackageLock (pre +:+ String Js.LF (packageLock +:+ a +:+ String Js.LF rest))
  = pre +:+ String Js.LF rest.
Proof.
  intros Hpre Hplain Hrest. unfold stripPackageLock.
  rewrite JsMore.includes_app_r.
  - apply replace_before; [|assumption]. intros b. now apply replace_line.
  - cbn [Js.includes]. rewrite (JsMore.includes_here packageLock).
    + apply orb_true_r.
    + apply JsMore.startsWith_refl_app.
Qed.

Lemma stripPackageLock_removes_line_witness :
  stripPackageLock ("save-exact = true" +:+ String Js.LF
                      (packageLock +:+ " = false" +:+ String Js.LF "registry=https://r/"))
  = "save-exact = true" +:+ String Js.LF "registry=https://r/".
Proof.
  apply stripPackageLock_removes_line; vm_compute; reflexivity.
Defined.

(** X4.  A [package-lock] line at the very start of the text is replaced by
    a line feed, which then opens the text; the line that follows is kept
    even when it is a package-lock line itself, because the line feed that
    would announce it has been used up by the match. *)
Theorem stripPackageLock_first_line (a rest : string) :
  plain a = true ->
  Js.includes lineStart rest = false ->
  stripPackageLock (packageLock +:+ a +:+ String Js.LF rest) = String Js.LF rest.
Proof.
  intros Hplain Hrest. unfold stripPackageLock.
  rewrite (JsMore.includes_here packageLock) by apply JsMore.startsWith_refl_app.
  change (packageLock +:+ a +:+ String Js.LF rest)
    with (String "p" (String "a" (String "c" (String "k" (String "a" (String "g"
          (String "e" (String "-" (String "l" (String "o" (String "c" (String "k"
          (a +:+ String Js.LF rest))))))))))))) at 1.
  cbn [replacePackageLock].
  change (String "p" (String "a" (String "c" (String "k" (String "a" (String "g"
          (String "e" (String "-" (String "l" (String "o" (String "c" (String "k"
          (a +:+ String Js.LF rest)))))))))))))
    with (packageLock +:+ a +:+ String Js.LF rest).
  rewrite match_text_start by assumption. f_equal.
  change (Nat.pred (12 + S (String.length a)))
    with (11 + S (String.length a))%nat.
  cbn [replacePackageLock Nat.add].
  rewrite replace_skip_line. now apply replace_nothing.
Qed.

Lemma stripPackageLock_first_line_witness :
  stripPackageLock (packageLock +:+ "=false" +:+ String Js.LF
                      (packageLock +:+ "=true" +:+ String Js.LF EmptyString))
  = String Js.LF (packageLock +:+ "=true" +:+ String Js.LF EmptyString).
Proof.
  apply stripPackageLock_first_line; vm_compute; reflexivity.
Defined.

Lemma match_line_start_end (a : string) (b : bool) :
  plain a = true ->
  matchPackageLock b (String Js.LF (packageLock +:+ a))
  = Some (13 + String.length a).
Proof.
  intros Hplain. unfold matchPackageLock.
  replace (b && Js.startsWith packageLock (String Js.LF (packageLock +:+ a)))
    with false by (now destruct b).
  rewrite Ascii.eqb_refl, JsMore.startsWith_refl_app. cbn [andb].
  change (Js.slice 12 (packageLock +:+ a)) with a.
  now rewrite matchLineTail_plain_end.
Qed.

(** X5.  A [package-lock] line that closes the text without a line feed of
    its own is cut out as well: the line feed before it is all that is left
    of it. *)
Theorem stripPackageLock_removes_last_line (pre a : string) :
  Js.includes packageLock pre = false ->
  plain a = true ->
  stripPackageLock (pre +:+ String Js.LF (packageLock +:+ a))
  = pre +:+ String Js.LF EmptyString.
Proof.
  intros Hpre Hplain. unfold stripPackageLock.
  rewrite JsMore.includes_app_r.
  - apply replace_before; [|assumption]. intros b. cbn [replacePackageLock].
    rewrite match_line_start_end by assumption. f_equal.
    change (Nat.pred (13 + String.length a)) with (12 + String.length a)%nat.
    change (packageLock +:+ a)
      with (String "p" (String "a" (String "c" (String "k" (String "a" (String "g"
            (String "e" (String "-" (String "l" (String "o" (String "c" (String "k"
            a)))))))))))).
    cbn [replacePackageLock Nat.add]. apply replace_skip_all.
  - cbn [Js.includes]. rewrite (JsMore.includes_here packageLock).
    + apply orb_true_r.
    + apply JsMore.startsWith_refl_app.
Qed.

Lemma stripPackageLock_removes_last_line_witness :
  stripPackageLock ("save-exact = true" +:+ String Js.LF (packageLock +:+ "=false"))
  = "save-exact = true" +:+ String Js.LF EmptyString.
Proof.
  apply stripPackageLock_removes_last_line; vm_compute; reflexivity.
Defined.

(** *** Lines *)

Lemma splitNewline_cons (s : string) : exists line rest, splitNewline s = line :: rest.
Proof.
  induction s as [|c s (line & rest & IH)]; [now exists EmptyString, []|].
  cbn [splitNewline]. rewrite IH.
  destruct (Ascii.eqb c Js.LF); [now eauto|].
  destruct (Ascii.eqb c Js.CR && Js.startsWith (String Js.LF EmptyString) s);
    simpl; eauto.
Qed.

Lemma join_cons_head (sep : string) (c : ascii) (line : string) (rest : list string) :
  Js.join sep (Js.cons_head c (line :: rest)) = String c (Js.join sep (line :: rest)).
Proof. destruct rest; reflexivity. Qed.

(** X6.  Splitting a text into lines and joining the lines with a line feed
    gives the text back when it holds no carriage return; and no line of
    any text holds a line feed. *)
Theorem join_splitNewline (s : string) :
  (Js.avoids Js.CR s = true -> Js.join nl (splitNewline s) = s)
  /\ Forall (fun line => Js.avoids Js.LF line = true) (splitNewline s).
Proof.
  split.
  - induction s as [|c s IH]; intros Hcr; [reflexivity|].
    cbn [Js.avoids] in Hcr. apply andb_prop in Hcr as [Hc Hcr].
    apply negb_true_iff in Hc. specialize (IH Hcr).
    cbn [splitNewline]. rewrite Hc. cbn [andb].
    destruct (splitNewline_cons s) as (line & rest & Hs). rewrite Hs in *.
    destruct (Ascii.eqb c Js.LF) eqn:Hlf.
    + apply Ascii.eqb_eq in Hlf. subst c.
      change (Js.join nl (EmptyString :: line :: rest))
        with (String Js.LF (Js.join nl (line :: rest))).
      now rewrite IH.
    + rewrite join_cons_head. now rewrite IH.
  - induction s as [|c s IH]; [repeat constructor|].
    cbn [splitNewline].
    destruct (Ascii.eqb c Js.LF) eqn:Hlf; [now constructor|].
    destruct (Ascii.eqb c Js.CR && Js.startsWith (String Js.LF EmptyString) s);
      [exact IH|].
    destruct (splitNewline_cons s) as (line & rest & Hs). rewrite Hs in *.
    inversion IH as [|? ? Hline Hrest]; subst. constructor; [|assumption].
    cbn [Js.avoids]. now rewrite Hlf, Hline.
Qed.

Lemma join_splitNewline_witness :
  Js.join nl (splitNewline ("registry=https://r/" +:+ nl +:+ nl +:+ "always-auth=true"))
  = "registry=https://r/" +:+ nl +:+ nl +:+ "always-auth=true".
Proof.
  apply (proj1 (join_splitNewline _)). vm_compute. reflexivity.
Defined.

End PackageLock.

(** ** More on the registry scopes *)

Module ScopesMore.
Import Npmrc.

Lemma firstSeenUrl_cons (u : Upgrade) (rest : list Upgrade) (scope : string) :
  firstSeenUrl (u :: rest) scope
  = match qualifies u with
    | Some (name, registryUrl) =>
        if bool_decide (scopeOf name = scope) then Some registryUrl
        else firstSeenUrl rest scope
    | None => firstSeenUrl rest scope
    end.
Proof. reflexivity. Qed.

Lemma linesStep_closed_form (upgrades : list Upgrade) :
  forall (ps : list (string * string)) (seen : gset string),
    NoDup ps.*1 ->
    (forall scope, String "@" scope ∈ seen <-> scope ∈ ps.*1) ->
    exists ps',
      (foldl linesStep (seen, registryLine <$> ps) upgrades).2 = registryLine <$> ps'
      /\ NoDup ps'.*1
      /\ forall scope registryUrl,
           (scope, registryUrl) ∈ ps'
           <-> ((scope, registryUrl) ∈ ps
                \/ ((scope ∉ ps.*1) /\ firstSeenUrl upgrades scope = Some registryUrl)).
Proof.
  induction upgrades as [|u upgrades IH]; intros ps seen Hnodup Hseen.
  - exists ps. split; [reflexivity|]. split; [assumption|].
    intros scope v. simpl. split; [now left|].
    intros [H|[_ H]]; [assumption | discriminate H].
  - cbn [foldl]. unfold linesStep at 2.
    destruct (qualifies u) as [[name registryUrl]|] eqn:Hq.
    2: { destruct (IH ps seen Hnodup Hseen) as (ps' & Hlines & Hnd & Hin).
         exists ps'. split; [exact Hlines|]. split; [exact Hnd|].
         intros scope v. rewrite firstSeenUrl_cons, Hq. apply Hin. }
    rewrite (NpmrcFacts.qualifies_scoped u name registryUrl Hq). cbn [fst snd].
    destruct (decide (scopeOf name ∈ ps.*1)) as [Hold|Hnew].
    + rewrite bool_decide_eq_true_2 by (now apply Hseen).
      destruct (IH ps seen Hnodup Hseen) as (ps' & Hlines & Hnd & Hin).
      exists ps'. split; [exact Hlines|]. split; [exact Hnd|].
      intros scope v. rewrite Hin, firstSeenUrl_cons, Hq.
      destruct (decide (scopeOf name = scope)) as [Heq|Hne].
      * rewrite bool_decide_eq_true_2 by assumption. rewrite <- Heq.
        split; (intros [Hp|[Hout _]]; [now left | now elim Hout]).
      * now rewrite bool_decide_eq_false_2.
    + rewrite bool_decide_eq_false_2 by (now rewrite Hseen).
      change ((registryLine <$> ps)
              ++ [String "@" (scopeOf name) +:+ ":registry=" +:+ registryUrl])
        with ((registryLine <$> ps) ++ (registryLine <$> [(scopeOf name, registryUrl)])).
      rewrite <- fmap_app.
      destruct (IH (ps ++ [(scopeOf name, registryUrl)])
                   ({[String "@" (scopeOf name)]} ∪ seen))
        as (ps' & Hlines & Hnd & Hin).
      * rewrite fmap_app. apply NoDup_app.
        repeat split; [assumption| |apply NoDup_singleton].
        intros x Hx Hx'. apply list_elem_of_singleton in Hx'. simpl in Hx'.
        now subst x.
      * intros scope. rewrite fmap_app, elem_of_app, elem_of_union, elem_of_singleton.
        simpl. rewrite list_elem_of_singleton, Hseen. split.
        -- intros [[= ->]|Hin]; auto.
        -- intros [Hin| ->]; auto.
      * exists ps'. split; [exact Hlines|]. split; [exact Hnd|].
        intros scope v. rewrite Hin, firstSeenUrl_cons, Hq.
        rewrite fmap_app, !elem_of_app. simpl. rewrite !list_elem_of_singleton.
        destruct (decide (scopeOf name = scope)) as [Heq|Hne].
        -- rewrite bool_decide_eq_true_2 by assumption. subst scope. split.
           ++ intros [[Hp|Hv]|[Hout _]].
              ** now left.
              ** injection Hv as ->. right. split; [assumption | reflexivity].
              ** elim Hout. now right.
           ++ intros [Hp|[_ Hv]].
              ** now left; left.
              ** injection Hv as ->. left. now right.
        -- rewrite bool_decide_eq_false_2 by assumption. split.
           ++ intros [[Hp|Hv]|[Hout Hf]].
              ** now left.
              ** injection Hv as Hs _. congruence.
              ** right. split; [|assumption]. intros Hp. apply Hout. now left.
           ++ intros [Hp|[Hout Hf]].
              ** now left; left.
              ** right. split; [|assumption].
                 intros [Hp|Hs]; [now apply Hout | congruence].
Qed.

(** X7.  The lines of [getRegistryNpmrcLines] are the rendering of a list
    of entries in which no scope occurs twice, and a scope is there with a
    registry URL exactly when that URL is the first one of the first upgrade
    that passes the guards with this scope: later upgrades of a scope change
    nothing. *)
Theorem getRegistryNpmrcLines_first_seen (upgrades : list Upgrade) :
  exists ps : list (string * string),
    getRegistryNpmrcLines upgrades = registryLine <$> ps
    /\ NoDup ps.*1
    /\ forall scope registryUrl,
         (scope, registryUrl) ∈ ps <-> firstSeenUrl upgrades scope = Some registryUrl.
Proof.
  destruct (linesStep_closed_form upgrades [] ∅) as (ps & Hlines & Hnd & Hin).
  - constructor.
  - intros scope. simpl. rewrite elem_of_nil. set_solver.
  - exists ps. split; [exact Hlines|]. split; [exact Hnd|].
    intros scope v. rewrite Hin. simpl. rewrite !elem_of_nil. tauto.
Qed.

Lemma scopesStep_closed_form (upgrades : list Upgrade) :
  forall (scopes : gmap string string) (scope : string),
    foldl scopesStep scopes upgrades !! scope
    = match scopes !! scope with
      | Some registryUrl => Some registryUrl
      | None =>
          if bool_decide (scope ∈ Js.objectPrototypeKeys) then None
          else firstSeenUrl upgrades scope
      end.
Proof.
  induction upgrades as [|u upgrades IH]; intros scopes scope.
  - simpl. destruct (scopes !! scope); [reflexivity|]. now case_bool_decide.
  - cbn [foldl]. rewrite IH, firstSeenUrl_cons. unfold scopesStep.
    destruct (qualifies u) as [[name registryUrl]|]; [|reflexivity].
    fold (scopeOf name). unfold Js.has_property.
    destruct (scopes !! scopeOf name) as [old|] eqn:Hold.
    { rewrite bool_decide_eq_true_2 by eauto. cbn [orb].
      destruct (scopes !! scope) eqn:Hk; [reflexivity|].
      case_bool_decide; [reflexivity|].
      rewrite bool_decide_eq_false_2; [reflexivity | congruence]. }
    rewrite (bool_decide_eq_false_2 (is_Some None)) by (intros [? ?]; discriminate).
    cbn [orb].
    destruct (decide (scopeOf name ∈ Js.objectPrototypeKeys)) as [Hproto|Hown].
    { rewrite bool_decide_eq_true_2 by assumption.
      destruct (scopes !! scope) eqn:Hk; [reflexivity|].
      case_bool_decide as Hp; [reflexivity|].
      rewrite bool_decide_eq_false_2; [reflexivity | congruence]. }
    rewrite (bool_decide_eq_false_2 (scopeOf name ∈ Js.objectPrototypeKeys))
      by assumption.
    destruct (decide (scopeOf name = scope)) as [<-|Hne].
    + rewrite lookup_insert_eq, Hold.
      rewrite (bool_decide_eq_false_2 (scopeOf name ∈ Js.objectPrototypeKeys))
        by assumption.
      now rewrite bool_decide_eq_true_2.
    + rewrite lookup_insert_ne by assumption.
      now rewrite (bool_decide_eq_false_2 (scopeOf name = scope)).
Qed.

(** X8.  The map of [getRegistryYarnrcScopes] holds, for a scope without its
    sigil, the first registry URL of the first upgrade that passes the
    guards with this scope, unless the scope is named like a property every
    object inherits, which is never held; and the map is absent rather than
    empty. *)
Theorem getRegistryYarnrcScopes_first_seen (upgrades : list Upgrade) :
  (forall scope,
     match getRegistryYarnrcScopes upgrades with
     | Some scopes => scopes !! scope
     | None => None
     end
     = if bool_decide (scope ∈ Js.objectPrototypeKeys) then None
       else firstSeenUrl upgrades scope)
  /\ getRegistryYarnrcScopes upgrades <> Some ∅.
Proof.
  unfold getRegistryYarnrcScopes. split.
  - intros scope.
    pose proof (scopesStep_closed_form upgrades ∅ scope) as Hclosed.
    rewrite lookup_empty in Hclosed.
    destruct (Nat.eqb (size (foldl scopesStep ∅ upgrades)) 0) eqn:Hsize;
      [|exact Hclosed].
    apply Nat.eqb_eq, map_size_empty_iff in Hsize.
    rewrite Hsize, lookup_empty in Hclosed. exact Hclosed.
  - destruct (Nat.eqb (size (foldl scopesStep ∅ upgrades)) 0) eqn:Hsize;
      [discriminate|].
    intros [= Hempty]. rewrite Hempty in Hsize. discriminate Hsize.
Qed.

Lemma registry_forms_agree_witness :
  exists ps : list (string * string),
    getRegistryNpmrcLines [scoped "@myorg/a" "https://r/"; scoped "@types/node" "https://t/"]
    = registryLine <$> ps
    /\ getRegistryYarnrcScopes [scoped "@myorg/a" "https://r/"; scoped "@types/node" "https://t/"]
       = match ps with [] => None | _ => Some (list_to_map ps) end.
Proof.
  destruct (NpmrcFacts.registry_forms_agree
              [scoped "@myorg/a" "https://r/"; scoped "@types/node" "https://t/"])
    as (ps & _ & Hlines & Hscopes).
  - apply List.Forall_cons; [|apply List.Forall_cons; [|apply List.Forall_nil]];
      intros name registryUrl Hq; vm_compute in Hq; injection Hq as <- _;
      apply (proj1 (bool_decide_eq_false _)); vm_compute; reflexivity.
  - exists ps. split; [exact Hlines | exact Hscopes].
Defined.

Lemma registry_forms_skip_witness :
  getRegistryNpmrcLines ([scoped "@myorg/a" "https://r/"]
                         ++ (scoped "lodash" "https://r/" :: [scoped "@myorg/b" "https://s/"]))
  = getRegistryNpmrcLines ([scoped "@myorg/a" "https://r/"] ++ [scoped "@myorg/b" "https://s/"]).
Proof.
  refine (proj1 (NpmrcFacts.registry_forms_skip [scoped "@myorg/a" "https://r/"]
                   [scoped "@myorg/b" "https://s/"] (scoped "lodash" "https://r/") _)).
  vm_compute. reflexivity.
Defined.

End ScopesMore.

(** ** More on the NuGet registries *)

Module RegistriesMore.
Import Nuget.


Lemma dedupe_from (urls : list string) :
  forall (seen : gset string) (out : list string),
    (forall u, u ∈ seen <-> u ∈ out) -> NoDup out ->
    let st := foldl (fun (st : gset string * list string) u =>
                       if bool_decide (u ∈ st.1) then st
                       else ({[u]} ∪ st.1, st.2 ++ [u]))
                    (seen, out) urls in
    NoDup st.2
    /\ (forall u, u ∈ st.2 <-> u ∈ out \/ u ∈ urls)
    /\ (NoDup (out ++ urls) -> st.2 = out ++ urls).
Proof.
  induction urls as [|x urls IH]; intros seen out Hseen Hnd; cbv zeta;
    cbn [foldl fst snd].
  - split; [assumption|]. split; [|now rewrite app_nil_r].
    intros u. rewrite elem_of_nil. tauto.
  - destruct (decide (x ∈ out)) as [Hin|Hout].
    + rewrite bool_decide_eq_true_2 by (now apply Hseen).
      destruct (IH seen out Hseen Hnd) as (Hnd' & Hmem & Hid).
      split; [exact Hnd'|]. split.
      * intros u. rewrite Hmem, elem_of_cons. split; [tauto|].
        intros [H|[->|H]]; tauto.
      * intros Hall. apply NoDup_app in Hall as (_ & Hdisj & _).
        elim (Hdisj x Hin). now left.
    + rewrite bool_decide_eq_false_2 by (now rewrite Hseen).
      destruct (IH ({[x]} ∪ seen) (out ++ [x])) as (Hnd' & Hmem & Hid).
      * intros u. rewrite elem_of_union, elem_of_singleton, elem_of_app,
          list_elem_of_singleton, Hseen. tauto.
      * apply NoDup_app. repeat split; [assumption| |apply NoDup_singleton].
        intros u Hu Hx. apply list_elem_of_singleton in Hx. now subst u.
      * split; [exact Hnd'|]. split.
        -- intros u. rewrite Hmem, elem_of_app, list_elem_of_singleton, elem_of_cons.
           tauto.
        -- intros Hall. rewrite <- app_assoc in Hid. now apply Hid.
Qed.

(** X12.  The registry URLs collected from the updated dependencies hold
    no URL twice, hold exactly the URLs that some dependency lists, and are
    the listed URLs in their order when these are already distinct. *)
Theorem combinedRegistryUrls_distinct (req : UpdateArtifact) :
  let listed := flat_map (fun d => default [] (registryUrls d)) (updatedDeps req) in
  NoDup (combinedRegistryUrls req)
  /\ (forall u, u ∈ combinedRegistryUrls req
                <-> exists d urls, d ∈ updatedDeps req
                                   /\ registryUrls d = Some urls /\ u ∈ urls)
  /\ (NoDup listed -> combinedRegistryUrls req = listed).
Proof.
  intros listed. unfold combinedRegistryUrls, dedupe. fold listed.
  destruct (dedupe_from listed ∅ []) as (Hnd & Hmem & Hid).
  - intros u. rewrite elem_of_nil. set_solver.
  - constructor.
  - split; [exact Hnd|]. split; [|exact Hid].
    intros u. rewrite Hmem, elem_of_nil. subst listed.
    rewrite list_elem_of_In, in_flat_map. split.
    + intros [[]|(d & Hd & Hu)]. exists d.
      destruct (registryUrls d) as [urls|] eqn:Hurls; [|inversion Hu].
      exists urls. now rewrite !list_elem_of_In.
    + intros (d & urls & Hd & Hurls & Hu). right. exists d.
      rewrite Hurls. now rewrite <- !list_elem_of_In.
Qed.


Lemma truthy_nonEmpty (u : string) : Js.truthy (Some u) = true <-> u <> EmptyString.
Proof. destruct u; simpl; split; congruence. Qed.

Lemma snoc_urls (out : list Registry) (r : Registry) (seen : gset string) :
  (forall u, u ∈ seen <-> u ∈ url <$> out) -> NoDup (url <$> out) ->
  url r ∉ url <$> out ->
  (forall u, u ∈ {[url r]} ∪ seen <-> u ∈ url <$> out ++ [r])
  /\ NoDup (url <$> out ++ [r]).
Proof.
  intros Hseen Hnd Hout. split.
  - intros u. rewrite fmap_app, elem_of_union, elem_of_singleton, elem_of_app.
    simpl. rewrite list_elem_of_singleton, Hseen. tauto.
  - rewrite fmap_app. apply NoDup_app. repeat split;
      [assumption| |apply NoDup_singleton].
    intros u Hu Hx. apply list_elem_of_singleton in Hx. simpl in Hx. now subst u.
Qed.

Lemma addConfigured_from (configured : list Registry) :
  forall (seen : gset string) (out : list Registry),
    (forall u, u ∈ seen <-> u ∈ url <$> out) -> NoDup (url <$> out) ->
    let st := foldl addConfigured (seen, out) configured in
    (forall u, u ∈ st.1 <-> u ∈ url <$> st.2)
    /\ NoDup (url <$> st.2)
    /\ (forall u, u ∈ url <$> st.2
                  <-> u ∈ url <$> out \/ (u <> EmptyString /\ u ∈ url <$> configured))
    /\ (forall r, r ∈ st.2 -> r ∈ out \/ r ∈ configured).
Proof.
  induction configured as [|r configured IH]; intros seen out Hseen Hnd; cbv zeta;
    cbn [foldl].
  - cbn [fst snd]. split; [exact Hseen|]. split; [exact Hnd|]. split; [|now left].
    intros u. rewrite fmap_nil, elem_of_nil. tauto.
  - assert (Hstep :
      addConfigured (seen, out) r = (seen, out)
      /\ (url r = EmptyString \/ url r ∈ url <$> out)
      \/ addConfigured (seen, out) r = ({[url r]} ∪ seen, out ++ [r])
         /\ url r <> EmptyString /\ url r ∉ url <$> out).
    { unfold addConfigured. cbn [fst snd].
      destruct (Js.truthy (Some (url r))) eqn:Ht; cbn [andb].
      - apply truthy_nonEmpty in Ht.
        destruct (decide (url r ∈ url <$> out)) as [Hin|Hout].
        + rewrite bool_decide_eq_true_2 by (now apply Hseen). left. auto.
        + rewrite bool_decide_eq_false_2 by (now rewrite Hseen). right. auto.
      - left. split; [reflexivity|]. left.
        destruct (url r); [reflexivity | discriminate Ht]. }
    destruct Hstep as [[-> Hskip] | (-> & Hne & Hout)].
    + destruct (IH seen out Hseen Hnd) as (H1 & H2 & H3 & H4).
      split; [exact H1|]. split; [exact H2|]. split.
      * intros u. rewrite H3, fmap_cons, elem_of_cons. intuition (subst; tauto).
      * intros x Hx. apply H4 in Hx as [Hx|Hx]; [now left | right; now right].
    + destruct (snoc_urls out r seen Hseen Hnd Hout) as [Hseen' Hnd'].
      destruct (IH _ _ Hseen' Hnd') as (H1 & H2 & H3 & H4).
      split; [exact H1|]. split; [exact H2|]. split.
      * intros u. rewrite H3, fmap_app, elem_of_app, !fmap_cons, fmap_nil,
          !elem_of_cons, elem_of_nil. intuition (subst; tauto).
      * intros x Hx. apply H4 in Hx as [Hx|Hx]; [|right; now right].
        apply elem_of_app in Hx as [Hx|Hx]; [now left|].
        apply list_elem_of_singleton in Hx. subst x. right. now left.
Qed.

Lemma addUrl_from (additional : list string) :
  forall (seen : gset string) (out : list Registry),
    (forall u, u ∈ seen <-> u ∈ url <$> out) -> NoDup (url <$> out) ->
    let st := foldl addUrl (seen, out) additional in
    NoDup (url <$> st.2)
    /\ (forall u, u ∈ url <$> st.2
                  <-> u ∈ url <$> out \/ (u <> EmptyString /\ u ∈ additional))
    /\ (forall r, r ∈ st.2 ->
          r ∈ out \/ (registryName r = None /\ url r <> EmptyString
                      /\ url r ∈ additional /\ url r ∉ url <$> out)).
Proof.
  induction additional as [|x additional IH]; intros seen out Hseen Hnd; cbv zeta;
    cbn [foldl].
  - cbn [fst snd]. split; [exact Hnd|]. split; [|now left].
    intros u. rewrite elem_of_nil. tauto.
  - assert (Hstep :
      addUrl (seen, out) x = (seen, out)
      /\ (x = EmptyString \/ x ∈ url <$> out)
      \/ addUrl (seen, out) x
         = ({[x]} ∪ seen, out ++ [{| url := x; registryName := None |}])
         /\ x <> EmptyString /\ x ∉ url <$> out).
    { unfold addUrl. cbn [fst snd].
      destruct (Js.truthy (Some x)) eqn:Ht; cbn [negb].
      - apply truthy_nonEmpty in Ht.
        destruct (decide (x ∈ url <$> out)) as [Hin|Hout].
        + rewrite bool_decide_eq_true_2 by (now apply Hseen). left. auto.
        + rewrite bool_decide_eq_false_2 by (now rewrite Hseen). right. auto.
      - left. split; [reflexivity|]. left.
        destruct x; [reflexivity | discriminate Ht]. }
    destruct Hstep as [[-> Hskip] | (-> & Hne & Hout)].
    + destruct (IH seen out Hseen Hnd) as (H2 & H3 & H4).
      split; [exact H2|]. split.
      * intros u. rewrite H3, elem_of_cons. intuition (subst; tauto).
      * intros r Hr. apply H4 in Hr as [Hr|(Hn & He & Hr & Ho)]; [now left|].
        right. repeat split; [assumption | assumption | now right | assumption].
    + destruct (snoc_urls out {| url := x; registryName := None |} seen Hseen Hnd Hout)
        as [Hseen' Hnd'].
      destruct (IH _ _ Hseen' Hnd') as (H2 & H3 & H4).
      split; [exact H2|]. split.
      * intros u. rewrite H3, fmap_app, elem_of_app, fmap_cons, fmap_nil,
          !elem_of_cons, elem_of_nil. simpl. intuition (subst; tauto).
      * intros r Hr. apply H4 in Hr as [Hr|(Hn & He & Hr & Ho)].
        -- apply elem_of_app in Hr as [Hr|Hr]; [now left|].
           apply list_elem_of_singleton in Hr. subst r. right. simpl.
           repeat split; [assumption | now left | assumption].
        -- right. repeat split; [assumption | assumption | now right |].
           intros Hc. apply Ho. rewrite fmap_app, elem_of_app. now left.
Qed.

(** X13.  The registries written to the generated [nuget.config] hold no
    URL twice and no empty URL; their URLs are exactly the non-empty URLs of
    the configured registries and of the additional URLs; a configured
    registry is kept as it is, and an additional URL gives a registry of
    its own, without a name, only when no configured registry has it. *)
Theorem combinedRegistries_distinct (configured : list Registry)
    (additionalRegistryUrls : list string) :
  let combined := combinedRegistries configured additionalRegistryUrls in
  NoDup (url <$> combined)
  /\ (forall u, u ∈ url <$> combined
                <-> u <> EmptyString
                    /\ (u ∈ url <$> configured \/ u ∈ additionalRegistryUrls))
  /\ (forall r, r ∈ combined ->
        r ∈ configured
        \/ (registryName r = None /\ url r ∈ additionalRegistryUrls
            /\ url r ∉ url <$> configured)).
Proof.
  cbv zeta. unfold combinedRegistries.
  destruct (addConfigured_from configured ∅ []) as (H1 & H2 & H3 & H4).
  { intros u. simpl. rewrite elem_of_nil. set_solver. }
  { constructor. }
  destruct (foldl addConfigured (∅, []) configured) as [seen out] eqn:Hfold.
  cbn [fst snd] in *.
  destruct (addUrl_from additionalRegistryUrls seen out H1 H2) as (G2 & G3 & G4).
  split; [exact G2|]. split.
  - intros u. rewrite G3, H3. simpl. rewrite elem_of_nil. tauto.
  - intros r Hr. apply G4 in Hr as [Hr|(Hn & He & Hr & Ho)].
    + apply H4 in Hr as [Hr|Hr]; [inversion Hr | now left].
    + right. repeat split; try assumption.
      intros Hc. apply Ho, H3. right. now split.
Qed.

End RegistriesMore.

(** ** More on the NuGet runs *)

Module RunsMore.
Import Nuget.

Section Runs.
Variable env : Env.

(** *** The generated configuration *)

(** X14.  [createCachedNuGetConfigFile] leaves the base branch and the
    working copy alone.  It ensures the cache directory, then writes
    [nuget.config] in it with the formatter's text for the combined
    registries (the configured ones, or the defaults when there are none),
    and returns that path; when the directory cannot be ensured it throws
    and writes nothing. *)
Theorem createCachedNuGetConfigFile_effect (dir packageFileName : string)
    (additionalRegistryUrls : list string) (w : World) :
  let configured :=
    default (getDefaultRegistries env) (getConfiguredRegistries env w packageFileName) in
  let path := upath_join env dir "nuget.config" in
  let contents :=
    createNuGetConfigXml env (combinedRegistries configured additionalRegistryUrls) in
  let run :=
    createCachedNuGetConfigFile env dir packageFileName additionalRegistryUrls w in
  committed run.2 = committed w
  /\ localFiles run.2 = localFiles w
  /\ (forall p, run.1 = Returned p ->
        p = path
        /\ trace run.2 = trace w ++ [EnsureDir dir; OutputCacheFile path contents])
  /\ (forall e, run.1 = Thrown e ->
        trace run.2 = trace w ++ [EnsureDir dir]
        \/ trace run.2 = trace w ++ [EnsureDir dir; OutputCacheFile path contents])
  /\ (forall e, ensureDirFailure env w dir = Some e ->
        run.1 = Thrown e /\ trace run.2 = trace w ++ [EnsureDir dir]).
Proof.
  cbv zeta. unfold createCachedNuGetConfigFile, combinedRegistries.
  unfold bind, reading, ret, ensureDir, outputCacheFile.
  destruct (ensureDirFailure env w dir) as [e|].
  - cbn. repeat split; try discriminate; intros; try (now left); congruence.
  - destruct (outputCacheFailure env _ _ _) as [e|]; cbn;
      rewrite <- app_assoc; repeat split; try discriminate; intros;
      try (now right); congruence.
Qed.

(** *** The restore *)

Lemma runDotnetRestore_steps (packageFileName : string) (files : list string)
    (config : UpdateArtifactsConfig) (urls : list string) (w : World) :
  let contents :=
    createNuGetConfigXml env
      (combinedRegistries
         (default (getDefaultRegistries env)
                  (getConfiguredRegistries env w packageFileName)) urls) in
  let w1 := emitted (EnsureDir (nugetCacheDir env)) w in
  let w2 := emitted (OutputCacheFile (nugetConfigFile env) contents) w1 in
  let cmds := restoreCommands env config (nugetConfigFile env) files in
  let opts :=
    restoreOptions env (dotnetVersionOf config (findGlobalJson env w2 packageFileName)) in
  runDotnetRestore env packageFileName files config urls w
  = match ensureDirFailure env w (nugetCacheDir env) with
    | Some e => (Thrown e, w1)
    | None =>
        match outputCacheFailure env w1 (nugetConfigFile env) contents with
        | Some e => (Thrown e, w2)
        | None =>
            let w3 := emitted (Exec cmds opts)
                        (withLocalFiles (toolchain env w2 cmds opts).1 w2) in
            match (toolchain env w2 cmds opts).2 with
            | Some e => (Thrown e, w3)
            | None => (Returned (), w3)
            end
        end
    end.
Proof.
  cbv zeta. unfold runDotnetRestore, createCachedNuGetConfigFile, combinedRegistries.
  unfold restoreOptions, dotnetVersionOf, nugetConfigFile, nugetCacheDir.
  unfold bind, reading, ret, ensureDir, outputCacheFile, exec.
  destruct (ensureDirFailure env w _); [reflexivity|].
  destruct (outputCacheFailure env _ _ _); [reflexivity|].
  destruct (constraints_dotnet config); cbn;
    destruct (toolchain env _ _ _) as [after [e|]]; reflexivity.
Qed.


(** X16.  The one run of the toolchain a restore makes has fixed options:
    the package cache under the cache directory of the manager, node reuse
    switched off, and one constraint, on [dotnet].  Its version is the one of
    the configuration when there is one; otherwise it is the sdk version of
    the [global.json] found for the package file once the cache file is
    written, and none when that file, its sdk or the version is missing.
    Every toolchain run in the trace of a restore is an earlier one or this
    one, and a restore that returns has made it, last. *)
Theorem runDotnetRestore_options (packageFileName : string) (files : list string)
    (config : UpdateArtifactsConfig) (urls : list string) (w : World) :
  let contents :=
    createNuGetConfigXml env
      (combinedRegistries
         (default (getDefaultRegistries env)
                  (getConfiguredRegistries env w packageFileName)) urls) in
  let w2 :=
    emitted (OutputCacheFile (nugetConfigFile env) contents)
      (emitted (EnsureDir (nugetCacheDir env)) w) in
  let dotnetVersion :=
    match constraints_dotnet config with
    | Some c => Some c
    | None =>
        match findGlobalJson env w2 packageFileName with
        | Some g => match sdk g with Some s => version s | None => None end
        | None => None
        end
    end in
  let opts0 :=
    {| docker := tt;
       extraEnv := [("NUGET_PACKAGES", upath_join env (nugetCacheDir env) "packages");
                    ("MSBUILDDISABLENODEREUSE", "1")];
       toolConstraints := [{| toolName := "dotnet"; constraint := dotnetVersion |}] |} in
  let cmds0 := restoreCommands env config (nugetConfigFile env) files in
  let run := runDotnetRestore env packageFileName files config urls w in
  (forall cmds opts,
     Exec cmds opts ∈ trace run.2 ->
     Exec cmds opts ∈ trace w \/ (cmds = cmds0 /\ opts = opts0))
  /\ (run.1 = Returned () ->
      trace run.2 = trace w ++ [EnsureDir (nugetCacheDir env);
                                OutputCacheFile (nugetConfigFile env) contents;
                                Exec cmds0 opts0]).
Proof.
  intros contents w2 dotnetVersion opts0 cmds0 run. subst run.
  rewrite runDotnetRestore_steps. cbv zeta.
  fold contents. fold w2. fold cmds0.
  change (restoreOptions env (dotnetVersionOf config (findGlobalJson env w2 packageFileName)))
    with opts0.
  destruct (ensureDirFailure env w _).
  { split; [|discriminate]. intros cmds opts. cbn.
    rewrite elem_of_app, list_elem_of_singleton.
    intros [H|H]; [now left | discriminate H]. }
  destruct (outputCacheFailure env _ _ _).
  { split; [|discriminate]. intros cmds opts. cbn.
    rewrite !elem_of_app, !list_elem_of_singleton.
    intros [[H|H]|H]; [now left | discriminate H | discriminate H]. }
  assert (Htrace : trace (emitted (Exec cmds0 opts0)
                            (withLocalFiles (toolchain env w2 cmds0 opts0).1 w2))
                   = trace w ++ [EnsureDir (nugetCacheDir env);
                                 OutputCacheFile (nugetConfigFile env) contents;
                                 Exec cmds0 opts0]).
  { cbn. now rewrite <- !app_assoc. }
  assert (Hin : forall cmds opts,
            Exec cmds opts
            ∈ trace (emitted (Exec cmds0 opts0)
                       (withLocalFiles (toolchain env w2 cmds0 opts0).1 w2)) ->
            Exec cmds opts ∈ trace w \/ (cmds = cmds0 /\ opts = opts0)).
  { intros cmds opts. rewrite Htrace, elem_of_app, !elem_of_cons, elem_of_nil.
    intros [H|[H|[H|[H|[]]]]]; [now left | discriminate H | discriminate H |].
    right. injection H as -> ->. now split. }
  destruct (toolchain env w2 cmds0 opts0).2; cbn [fst snd];
    (split; [exact Hin|]); [discriminate | intros _; exact Htrace].
Qed.

End Runs.

End RunsMore.

(** ** More on [updateArtifacts] *)

Module ArtifactsMore.
Import Nuget.

Section Artifacts.
Variable env : Env.

Local Abbreviation watched := (watchedLockFiles env).
Local Abbreviation leaves req w := (packageFiles (dependents env req w)).

(** *** The gates *)

(** X17.  With no updated dependency and without lock file maintenance the
    result is [null] and nothing is written or run, whatever the manifest
    and the lock files are. *)
Theorem updateArtifacts_nothing_to_update (req : UpdateArtifact) (w : World) :
  updatedDeps req = [] ->
  isLockFileMaintenance (config req) <> Some true ->
  updateArtifacts env req w = (Returned None, w).
Proof.
  intros Hdeps Hmaint. destruct (appliesTo env req) eqn:Happ.
  - rewrite NugetFacts.updateArtifacts_applicable by assumption.
    destruct (hasLockFileContent _); [|reflexivity]. cbn [negb].
    rewrite Hdeps. rewrite bool_decide_eq_false_2 by assumption. reflexivity.
  - now apply NugetFacts.updateArtifacts_not_applicable.
Qed.

Lemma isProjectFile_iff (packageFileName : string) :
  isProjectFile packageFileName = true
  <-> exists pre suffix,
        packageFileName = pre +:+ suffix
        /\ Js.toLowerCase suffix ∈ ["csproj"; "vbproj"; "fsproj"].
Proof.
  unfold isProjectFile. cbv zeta. rewrite !orb_true_iff. split.
  - intros Hends.
    assert (exists suffix', Js.endsWith suffix' (Js.toLowerCase packageFileName) = true
                            /\ suffix' ∈ ["csproj"; "vbproj"; "fsproj"])
      as (suffix' & Hs & Hin).
    { destruct Hends as [[H|H]|H]; eexists; (split; [exact H|]);
        repeat first [now left | right]. }
    apply JsMore.endsWith_split in Hs as [pre' Hs].
    apply JsMore.toLowerCase_split in Hs as (pre & suffix & -> & _ & Hsuffix).
    exists pre, suffix. now rewrite Hsuffix.
  - intros (pre & suffix & -> & Hin). rewrite JsMore.toLowerCase_app.
    repeat (apply elem_of_cons in Hin as [->|Hin]);
      [left; left | left; right | right | inversion Hin];
      apply JsMore.endsWith_app.
Qed.

(** X18.  The manifests the manager regenerates lock files for are: the two
    central version files, alone or at the end of a path after a slash;
    [global.json], alone only; and every name that ends in [csproj],
    [vbproj] or [fsproj], in any letter case. *)
Theorem appliesTo_iff (req : UpdateArtifact) :
  appliesTo env req = true
  <-> packageFileName req = NUGET_CENTRAL_FILE env
      \/ packageFileName req = MSBUILD_CENTRAL_FILE env
      \/ (exists dir, packageFileName req = dir +:+ "/" +:+ NUGET_CENTRAL_FILE env)
      \/ (exists dir, packageFileName req = dir +:+ "/" +:+ MSBUILD_CENTRAL_FILE env)
      \/ packageFileName req = GLOBAL_JSON env
      \/ exists pre suffix,
           packageFileName req = pre +:+ suffix
           /\ Js.toLowerCase suffix ∈ ["csproj"; "vbproj"; "fsproj"].
Proof.
  unfold appliesTo, isCentralManagement, isGlobalJson.
  rewrite !orb_true_iff, !String.eqb_eq, isProjectFile_iff.
  assert (Hends : forall file,
            Js.endsWith ("/" +:+ file) (packageFileName req) = true
            <-> exists dir, packageFileName req = dir +:+ "/" +:+ file).
  { intros file. split.
    - intros H. now apply JsMore.endsWith_split in H.
    - intros [dir ->]. apply JsMore.endsWith_app. }
  rewrite !Hends. tauto.
Qed.

(** *** The four ways a run ends *)

Lemma updateArtifacts_cases (req : UpdateArtifact) (w : World) :
  updateArtifacts env req w = (Returned None, w)
  \/ (exists e w0,
        writeManifest env req w = (Thrown e, w0)
        /\ updateArtifacts env req w = classify env (watched req w) e w0)
  \/ (exists e w0 w1,
        writeManifest env req w = (Returned (), w0)
        /\ restore env req (leaves req w) w0 = (Thrown e, w1)
        /\ updateArtifacts env req w = classify env (watched req w) e w1)
  \/ (exists w0 w1,
        writeManifest env req w = (Returned (), w0)
        /\ restore env req (leaves req w) w0 = (Returned (), w1)
        /\ updateArtifacts env req w
           = (Returned (match additions (committed w) (localFiles w1) (watched req w) with
                        | [] => None
                        | ret => Some ret
                        end), w1)).
Proof.
  destruct (appliesTo env req) eqn:Happ;
    [|left; now apply NugetFacts.updateArtifacts_not_applicable].
  destruct (hasLockFileContent (readAll (committed w) (watched req w))) eqn:Hlock;
    [|left; now rewrite NugetFacts.updateArtifacts_applicable, Hlock].
  destruct (regenerates req) eqn:Hreg.
  2: { left. rewrite NugetFacts.updateArtifacts_applicable, Hlock by assumption.
       unfold regenerates in Hreg. apply orb_false_elim in Hreg as [Hlen Hmaint].
       apply negb_false_iff in Hlen. cbn [negb]. now rewrite Hlen, Hmaint. }
  apply NugetFacts.hasLockFileContent_readAll in Hlock. right.
  destruct (writeManifest env req w) as [[[]|e] w0] eqn:Hw.
  - right. destruct (restore env req (leaves req w) w0) as [[[]|e] w1] eqn:Hr.
    + right. exists w0, w1. repeat split; try assumption.
      now apply (NugetFacts.updateArtifacts_returned env req w w0 w1).
    + left. exists e, w0, w1. repeat split; try assumption.
      apply NugetFacts.updateArtifacts_caught; eauto.
  - left. exists e, w0. split; [reflexivity|].
    apply NugetFacts.updateArtifacts_caught; eauto.
Qed.

Lemma classify_cases (names : list string) (e : Err) (w : World) :
  (message e = TEMPORARY_ERROR env /\ classify env names e w = (Thrown e, w))
  \/ (message e <> TEMPORARY_ERROR env
      /\ classify env names e w
         = (Returned (Some [ArtifactError (Js.join ", " names)
                                          (default (message e) (stdout e))]), w)).
Proof.
  unfold classify. destruct (String.eqb (message e) (TEMPORARY_ERROR env)) eqn:Hm.
  - left. apply String.eqb_eq in Hm. auto.
  - right. apply String.eqb_neq in Hm. auto.
Qed.

(** X19.  What a run returns, when it returns a list, never mixes the two
    kinds of result and is never empty: it is the single ArtifactError over
    the watched lock files, or it holds Additions only. *)
Theorem updateArtifacts_result_shape (req : UpdateArtifact) (w : World)
    (ret : list UpdateArtifactsResult) :
  (updateArtifacts env req w).1 = Returned (Some ret) ->
  ret <> []
  /\ ((exists diagnostics,
         ret = [ArtifactError (Js.join ", " (watched req w)) diagnostics])
      \/ forall x, x ∈ ret -> exists path contents, x = Addition path contents).
Proof.
  destruct (updateArtifacts_cases req w)
    as [-> | [(e & w0 & _ & ->) | [(e & w0 & w1 & _ & _ & ->) | (w0 & w1 & _ & _ & ->)]]].
  - discriminate.
  - destruct (classify_cases (watched req w) e w0) as [[Hm ->] | [Hm ->]];
      cbn [fst]; [discriminate|]. intros [= <-]. split; [discriminate | eauto].
  - destruct (classify_cases (watched req w) e w1) as [[Hm ->] | [Hm ->]];
      cbn [fst]; [discriminate|]. intros [= <-]. split; [discriminate | eauto].
  - cbn [fst].
    destruct (additions (committed w) (localFiles w1) (watched req w))
      as [|x rest] eqn:Hadd; [discriminate|].
    intros [= <-]. split; [discriminate|]. right. intros y Hy. rewrite <- Hadd in Hy.
    apply NugetFacts.additions_are_additions in Hy as (n & c & -> & _). eauto.
Qed.

(** *** What a run touches *)

Lemma writeManifest_frame (req : UpdateArtifact) (w : World) :
  committed (writeManifest env req w).2 = committed w
  /\ trace (writeManifest env req w).2
     = trace w ++ [WriteLocalFile (packageFileName req) (newPackageFileContent req)].
Proof.
  unfold writeManifest, writeLocalFile.
  destruct (writeFailure env w _ _); split; reflexivity.
Qed.

Lemma restore_frame (req : UpdateArtifact) (files : list string) (w : World) :
  committed (restore env req files w).2 = committed w
  /\ exists evs,
       trace (restore env req files w).2 = trace w ++ evs
       /\ forall path contents, WriteLocalFile path contents ∉ evs.
Proof.
  unfold restore. rewrite RunsMore.runDotnetRestore_steps. cbv zeta.
  destruct (ensureDirFailure env w _).
  { split; [reflexivity|]. eexists [_]. split; [reflexivity|].
    intros p c Hin. apply list_elem_of_singleton in Hin. discriminate Hin. }
  destruct (outputCacheFailure env _ _ _).
  { split; [reflexivity|]. eexists [_; _]. cbn. rewrite <- app_assoc.
    split; [reflexivity|]. intros p c Hin.
    repeat (apply elem_of_cons in Hin as [Hin|Hin]; [discriminate Hin|]).
    inversion Hin. }
  destruct (toolchain env _ _ _) as [after [e|]]; cbn;
    (split; [reflexivity|]; eexists [_; _; _]; rewrite <- !app_assoc;
     split; [reflexivity|]; intros p c Hin;
     repeat (apply elem_of_cons in Hin as [Hin|Hin]; [discriminate Hin|]);
     inversion Hin).
Qed.

(** X20.  Of the calls that change something (a write to the working copy,
    the creation of the cache directory, a write to the cache, a run of the
    toolchain), a run makes none, or it makes the write of the manifest with
    its new content before any other, and writes no other file of the
    working copy itself: the cache is prepared and the toolchain is run only
    after the manifest is in place.  The reads a run makes before that write
    are not among these calls. *)
Theorem updateArtifacts_frame (req : UpdateArtifact) (w : World) :
  trace (updateArtifacts env req w).2 = trace w
  \/ exists rest,
       trace (updateArtifacts env req w).2
       = trace w ++ WriteLocalFile (packageFileName req) (newPackageFileContent req)
                    :: rest
       /\ forall path contents, WriteLocalFile path contents ∉ rest.
Proof.
  pose proof (writeManifest_frame req w) as [_ Hwt].
  destruct (updateArtifacts_cases req w)
    as [-> | [(e & w0 & Hw & ->) | [(e & w0 & w1 & Hw & Hr & ->) | (w0 & w1 & Hw & Hr & ->)]]].
  - now left.
  - rewrite Hw in Hwt. cbn [snd] in Hwt.
    destruct (classify_cases (watched req w) e w0) as [[_ ->] | [_ ->]]; cbn [snd];
      (right; exists []; split; [assumption|]; intros p c Hin; inversion Hin).
  - rewrite Hw in Hwt. cbn [snd] in Hwt.
    destruct (restore_frame req (leaves req w) w0) as (_ & evs & Hrt & Hno).
    rewrite Hr in Hrt. cbn [snd] in Hrt.
    destruct (classify_cases (watched req w) e w1) as [[_ ->] | [_ ->]]; cbn [snd];
      (right; exists evs; split; [|assumption];
       now rewrite Hrt, Hwt, <- app_assoc).
  - rewrite Hw in Hwt. cbn [snd] in Hwt.
    destruct (restore_frame req (leaves req w) w0) as (_ & evs & Hrt & Hno).
    rewrite Hr in Hrt. cbn [snd] in Hrt |- *.
    right. exists evs. split; [|assumption].
    now rewrite Hrt, Hwt, <- app_assoc.
Qed.


End Artifacts.

Section Runs.
Import Demo.

Lemma updateArtifacts_nothing_to_update_witness :
  updateArtifacts envRewriting (idleRequest "app/app.csproj") (world {[ lockFile := "old" ]})
  = (Returned None, world {[ lockFile := "old" ]}).
Proof.
  apply updateArtifacts_nothing_to_update; [reflexivity | discriminate].
Defined.


Lemma updateArtifacts_result_shape_witness :
  [Addition lockFile "new"] <> []
  /\ ((exists diagnostics,
         [Addition lockFile "new"]
         = [ArtifactError
              (Js.join ", " (watchedLockFiles envRewriting (request "app/app.csproj")
                               (world {[ lockFile := "old" ]})))
              diagnostics])
      \/ forall x, x ∈ [Addition lockFile "new"] ->
                   exists path contents, x = Addition path contents).
Proof.
  apply (updateArtifacts_result_shape envRewriting (request "app/app.csproj")
           (world {[ lockFile := "old" ]})).
  vm_compute. reflexivity.
Defined.


End Runs.

End ArtifactsMore.

(** ** A pinned toolchain *)

Module PinnedRestore.
Import Nuget Nuget.Demo.

Lemma runDotnetRestore_options_witness :
  trace (runDotnetRestore envRewriting "app/app.csproj" ["app/app.csproj"]
           {| constraints_dotnet := Some "8.0.100"; postUpdateOptions := None;
              isLockFileMaintenance := None |} [] (world ∅)).2
  = [EnsureDir "/tmp/cache/nuget";
     OutputCacheFile "/tmp/cache/nuget/nuget.config"
       (createNuGetConfigXml envRewriting
          (combinedRegistries (getDefaultRegistries envRewriting) []));
     Exec ["dotnet restore app/app.csproj --force-evaluate --configfile /tmp/cache/nuget/nuget.config"]
          {| docker := tt;
             extraEnv := [("NUGET_PACKAGES", "/tmp/cache/nuget/packages");
                          ("MSBUILDDISABLENODEREUSE", "1")];
             toolConstraints := [{| toolName := "dotnet";
                                    constraint := Some "8.0.100" |}] |}].
Proof.
  destruct (RunsMore.runDotnetRestore_options envRewriting "app/app.csproj"
              ["app/app.csproj"]
              {| constraints_dotnet := Some "8.0.100"; postUpdateOptions := None;
                 isLockFileMaintenance := None |} [] (world ∅))
    as [_ Hreturned].
  rewrite Hreturned.
  - vm_compute. reflexivity.
  - vm_compute. reflexivity.
Defined.

End PinnedRestore.
